(** * bella-2up.io: the retrieval-augmented context pipeline

    A shallow embedding of the conversation store ([app/database.py]),
    the query translator ([app/services/query_translator.py]), the
    similarity search ([app/services/vector_service.py]), the context
    builder ([app/services/context_builder.py], with
    [app/services/prompt_service.py]) and the generation orchestrator
    ([app/services/ai_service.py]), and the properties of each.

    Conventions.
    - A Python [str] is a list of Unicode code points ([str]).
    - A Python [float] is an exact rational ([Q]); rounding is not modelled.
    - A [datetime] is an integer timestamp in seconds ([Z]).
    - Code that can raise returns a [result]; code that talks to the
      DeepSeek API runs in the monad [M], which threads the log of the
      requests sent.
    - Logging ([structlog]) and the audit file have no effect on results
      ([_append_audit_log] swallows its own failures) and are left out. *)

From Stdlib Require Import ZArith NArith QArith Qminmax List Lia Bool.
From Stdlib Require Import Sorted Permutation String Ascii Lqa.
From stdpp Require Import gmap.
Import ListNotations.

Local Open Scope Z_scope.

(** ** Python strings *)

Definition char : Type := N.
Definition str : Type := list char.

(** [str.isspace] on one code point: the characters [str.strip] removes. *)
Definition isspace (c : char) : bool :=
  ((9 <=? c) && (c <=? 13) || (28 <=? c) && (c <=? 32)
   || (c =? 133) || (c =? 160) || (c =? 5760)
   || (8192 <=? c) && (c <=? 8202) || (c =? 8232) || (c =? 8233)
   || (c =? 8239) || (c =? 8287) || (c =? 12288))%N.

Fixpoint lstrip (s : str) : str :=
  match s with
  | [] => []
  | c :: s' => if isspace c then lstrip s' else s
  end.

Definition rstrip (s : str) : str := rev (lstrip (rev s)).

Definition strip (s : str) : str := rstrip (lstrip s).

Fixpoint str_eqb (a b : str) : bool :=
  match a, b with
  | [], [] => true
  | x :: a', y :: b' => (x =? y)%N && str_eqb a' b'
  | _, _ => false
  end.

(** Python truthiness of a string: [not s] holds for the empty string. *)
Definition str_is_empty (s : str) : bool :=
  match s with [] => true | _ => false end.

(** Decoding of the UTF-8 bytes of a literal into code points. *)
Fixpoint utf8_decode (pending : nat) (acc : N) (bs : list N) : str :=
  match bs with
  | [] => []
  | b :: bs' =>
      match pending with
      | O =>
          if (b <? 128)%N then b :: utf8_decode 0 0%N bs'
          else if (b <? 224)%N then utf8_decode 1 (b - 192)%N bs'
          else if (b <? 240)%N then utf8_decode 2 (b - 224)%N bs'
          else utf8_decode 3 (b - 240)%N bs'
      | S O => (acc * 64 + (b - 128))%N :: utf8_decode 0 0%N bs'
      | S p => utf8_decode p (acc * 64 + (b - 128))%N bs'
      end
  end.

Definition u (s : string) : str :=
  utf8_decode 0 0%N (map N_of_ascii (list_ascii_of_string s)).

Definition nl : str := [10%N].

(** ** Exceptions *)

(** The subclasses of [Exception] this code can meet. *)
Inductive exn : Type :=
  | ValueError (msg : str)
  | AttributeError
  | IndexError
  | KeyError
  | TypeError
  | HTTPError            (* httpx: timeout, connection, non-2xx status *)
  | JSONDecodeError
  | DatabaseError        (* sqlite3.Error *)
  | EmbeddingServiceError
  | VectorServiceError
  | OtherError.

Inductive result (A : Type) : Type :=
  | Ok (a : A)
  | Raise (e : exn).
Arguments Ok {A} a.
Arguments Raise {A} e.


(** ** [app/config.py], [app/models.py] *)

Inductive PersonaType : Type := BUSINESS | BELLA | BEN.


Record Config : Type := {
  MESSAGE_HISTORY_LIMIT : Z;
  VECTOR_SEARCH_LIMIT : Z;
  VECTOR_SIMILARITY_THRESHOLD : Q;
}.

(** The values [Config] takes when the environment sets none. *)
Definition default_config : Config := {|
  MESSAGE_HISTORY_LIMIT := 20;
  VECTOR_SEARCH_LIMIT := 8;
  VECTOR_SIMILARITY_THRESHOLD := 7 # 10;
|}.


Inductive MessageRole : Type := USER | ASSISTANT | SYSTEM.

Definition role_value (r : MessageRole) : str :=
  match r with
  | USER => u "user"
  | ASSISTANT => u "assistant"
  | SYSTEM => u "system"
  end.

Record Message : Type := {
  id : option Z;
  chat_id : Z;
  user_id : option Z;
  message_id : option Z;
  role : MessageRole;
  content : str;
  persona_type : PersonaType;
  created_at : Z;
}.

(** A [{"role": ..., "content": ...}] dictionary of the chat API. *)
Record ApiMessage : Type := {
  api_role : MessageRole;
  api_content : str;
}.


Record ChatState : Type := {
  cs_chat_id : Z;
  current_persona : PersonaType;
  message_count : Z;
  last_activity : Z;
}.

(** [ChatState.create_default] *)
Definition create_default (now : Z) (chat : Z) : ChatState :=
  {| cs_chat_id := chat; current_persona := BUSINESS;
     message_count := 0; last_activity := now |}.

(** ** [app/database.py]: the conversation store *)

Module Database.

(** A row of table [messages]; [row_id] is the AUTOINCREMENT key. *)
Record row : Type := {
  row_id : Z;
  row_chat_id : Z;
  row_user_id : option Z;
  row_message_id : option Z;
  row_role : MessageRole;
  row_content : str;
  row_persona_type : PersonaType;
  row_created_at : Z;
}.

(** A row of table [chat_states], keyed by [chat_id]. *)
Record state_row : Type := {
  st_persona : PersonaType;
  st_count : Z;
  st_activity : Z;
}.

(** The database: [messages] in rowid order, [chat_states] by primary key,
    and the AUTOINCREMENT counter of [messages]. Every operation below is
    one [get_connection] block run to its commit; [now] is the value of
    CURRENT_TIMESTAMP. *)
Record db : Type := {
  messages : list row;
  chat_states : gmap Z state_row;
  sqlite_sequence : Z;
}.

Definition empty_db : db :=
  {| messages := []; chat_states := ∅; sqlite_sequence := 0 |}.

Definition of_chat (c : Z) (r : row) : bool := row_chat_id r =? c.

(** [SELECT COUNT( * ) FROM messages WHERE chat_id = ?] *)
Definition count_messages (c : Z) (rows : list row) : Z :=
  Z.of_nat (length (List.filter (of_chat c) rows)).

(** [ORDER BY created_at DESC] over one chat is answered from the index
    [idx_messages_chat_created (chat_id, created_at)] read backwards; an
    index entry ends with the rowid, so rows with equal [created_at] come
    out by descending id. *)
Definition newer (a b : row) : bool :=
  (row_created_at b <? row_created_at a)
  || ((row_created_at a =? row_created_at b) && (row_id b <? row_id a)).

Fixpoint insert_desc (x : row) (l : list row) : list row :=
  match l with
  | [] => [x]
  | y :: l' => if newer y x then y :: insert_desc x l' else x :: l
  end.

Definition order_by_created_at_desc (rows : list row) : list row :=
  fold_right insert_desc [] rows.

(** [LIMIT n]: a negative [n] means no limit in SQLite. *)
Definition sql_limit {A} (n : Z) (l : list A) : list A :=
  if n <? 0 then l else firstn (Z.to_nat n) l.

Definition id_in (ids : list Z) (r : row) : bool :=
  existsb (Z.eqb (row_id r)) ids.

(** [_update_message_count]: INSERT OR REPLACE of the chat's state row with
    the current COUNT of its messages. *)
Definition _update_message_count (now : Z) (c : Z) (d : db) : db :=
  let persona :=
    match chat_states d !! c with
    | Some s => st_persona s
    | None => BUSINESS
    end in
  {| messages := messages d;
     chat_states :=
       <[c := {| st_persona := persona;
                 st_count := count_messages c (messages d);
                 st_activity := now |}]> (chat_states d);
     sqlite_sequence := sqlite_sequence d |}.

(** [_cleanup_old_messages]: DELETE the chat's rows whose id is NOT IN the
    newest [MESSAGE_HISTORY_LIMIT] ones. *)
Definition newest_ids (limit : Z) (c : Z) (rows : list row) : list Z :=
  map row_id
    (sql_limit limit (order_by_created_at_desc (List.filter (of_chat c) rows))).

Definition _cleanup_old_messages (cfg : Config) (c : Z) (d : db) : db :=
  let keep := newest_ids (MESSAGE_HISTORY_LIMIT cfg) c (messages d) in
  {| messages :=
       List.filter (fun r => negb (of_chat c r && negb (id_in keep r)))
         (messages d);
     chat_states := chat_states d;
     sqlite_sequence := sqlite_sequence d |}.

Definition insert_message (m : Message) (d : db) : Z * db :=
  let k := sqlite_sequence d + 1 in
  (k,
   {| messages :=
        messages d ++
        [{| row_id := k; row_chat_id := chat_id m; row_user_id := user_id m;
            row_message_id := message_id m; row_role := role m;
            row_content := content m; row_persona_type := persona_type m;
            row_created_at := created_at m |}];
      chat_states := chat_states d;
      sqlite_sequence := k |}).

(** [save_message]: INSERT, then the counter update, then the trim. *)
Definition save_message (cfg : Config) (now : Z) (m : Message) (d : db)
  : Z * db :=
  let '(k, d1) := insert_message m d in
  let d2 := _update_message_count now (chat_id m) d1 in
  let d3 := _cleanup_old_messages cfg (chat_id m) d2 in
  (k, d3).

Definition message_of_row (r : row) : Message :=
  {| id := Some (row_id r); chat_id := row_chat_id r;
     user_id := row_user_id r; message_id := row_message_id r;
     role := row_role r; content := row_content r;
     persona_type := row_persona_type r; created_at := row_created_at r |}.

(** [limit or config.MESSAGE_HISTORY_LIMIT]: [None] and [0] are falsy. *)
Definition limit_or (limit : option Z) (dflt : Z) : Z :=
  match limit with
  | Some n => if n =? 0 then dflt else n
  | None => dflt
  end.

(** [get_chat_history]: the newest [limit] rows of the chat, optionally not
    older than [hours_back] hours, returned oldest first. *)
Definition get_chat_history (cfg : Config) (now : Z) (d : db) (c : Z)
    (limit : option Z) (hours_back : option Z) : list Message :=
  let limit := limit_or limit (MESSAGE_HISTORY_LIMIT cfg) in
  let in_window (r : row) : bool :=
    match hours_back with
    | Some h => now - h * 3600 <=? row_created_at r
    | None => true
    end in
  let rows :=
    sql_limit limit
      (order_by_created_at_desc
         (List.filter (fun r => of_chat c r && in_window r) (messages d))) in
  rev (map message_of_row rows).

(** [clear_chat_history]: DELETE the chat's messages and UPDATE the counter
    of its state row, when there is one; returns the number of rows deleted. *)
Definition clear_chat_history (now : Z) (c : Z) (d : db) : Z * db :=
  let deleted_count := count_messages c (messages d) in
  (deleted_count,
   {| messages := List.filter (fun r => negb (of_chat c r)) (messages d);
      chat_states :=
        match chat_states d !! c with
        | Some s =>
            <[c := {| st_persona := st_persona s; st_count := 0;
                      st_activity := now |}]> (chat_states d)
        | None => chat_states d
        end;
      sqlite_sequence := sqlite_sequence d |}).

(** [save_chat_state]: INSERT OR REPLACE. *)
Definition save_chat_state (st : ChatState) (d : db) : db :=
  {| messages := messages d;
     chat_states :=
       <[cs_chat_id st := {| st_persona := current_persona st;
                             st_count := message_count st;
                             st_activity := last_activity st |}]>
         (chat_states d);
     sqlite_sequence := sqlite_sequence d |}.

(** [get_chat_state]: the chat's state row, created with the default
    persona when absent. *)
Definition get_chat_state (now : Z) (c : Z) (d : db) : ChatState * db :=
  match chat_states d !! c with
  | Some s =>
      ({| cs_chat_id := c; current_persona := st_persona s;
          message_count := st_count s; last_activity := st_activity s |}, d)
  | None =>
      let state := create_default now c in
      (state, save_chat_state state d)
  end.

(** [update_chat_persona]: upsert that keeps the counter. *)
Definition update_chat_persona (now : Z) (c : Z) (p : PersonaType) (d : db)
  : db :=
  {| messages := messages d;
     chat_states :=
       <[c := {| st_persona := p;
                 st_count := match chat_states d !! c with
                             | Some s => st_count s
                             | None => 0
                             end;
                 st_activity := now |}]> (chat_states d);
     sqlite_sequence := sqlite_sequence d |}.

(** A sequence of [save_message] calls, each with its own clock value. *)
Fixpoint save_all (cfg : Config) (ms : list (Z * Message)) (d : db) : db :=
  match ms with
  | [] => d
  | (now, m) :: ms' => save_all cfg ms' (snd (save_message cfg now m d))
  end.

End Database.


(** ** Results and the request monad *)

Global Instance result_ret : MRet result := @Ok.
Global Instance result_bind : MBind result := fun A B f r =>
  match r with
  | Ok a => f a
  | Raise e => Raise e
  end.

(** [try: body / except Exception as e: handler e] over a [result]. *)
Definition try_result {A} (body : result A) (handler : exn -> result A)
  : result A :=
  match body with
  | Ok a => Ok a
  | Raise e => handler e
  end.

(** JSON values, as [resp.json()] returns them. An object is the list of
    its entries, looked up by key. *)
#[warnings="-register-all"]
Inductive json : Type :=
  | JNull
  | JBool (b : bool)
  | JNum (q : Q)
  | JStr (s : str)
  | JArr (l : list json)
  | JObj (kvs : list (str * json)).

Fixpoint dict_lookup (k : str) (kvs : list (str * json)) : option json :=
  match kvs with
  | [] => None
  | (k', v) :: kvs' => if str_eqb k k' then Some v else dict_lookup k kvs'
  end.

(** [d.get(k, default)]: only a dict has [get]. *)
Definition py_get (d : json) (k : str) (default : json) : result json :=
  match d with
  | JObj kvs =>
      Ok (match dict_lookup k kvs with Some v => v | None => default end)
  | _ => Raise AttributeError
  end.


(** [x[0]] *)
Definition py_first (x : json) : result json :=
  match x with
  | JArr [] => Raise IndexError
  | JArr (v :: _) => Ok v
  | JStr [] => Raise IndexError
  | JStr (c :: _) => Ok (JStr [c])
  | JObj _ => Raise KeyError
  | _ => Raise TypeError
  end.

(** [x.strip()]: only a string has [strip]. *)
Definition py_strip (x : json) : result str :=
  match x with
  | JStr s => Ok (strip s)
  | _ => Raise AttributeError
  end.


(** The body of a POST to [/v1/chat/completions]. *)
Record Payload : Type := {
  pl_model : str;
  pl_messages : list ApiMessage;
  pl_max_tokens : option Z;
  pl_temperature : option Q;
}.

(** The DeepSeek API as the program sees it: given the requests sent so
    far and the next one, what [client.post], [raise_for_status] and
    [resp.json] give: the decoded body, or the exception of a timeout, a
    refused connection, a non-2xx status or an undecodable body. *)
Definition Api : Type := list Payload -> Payload -> result json.

(** Computations that send requests: the log of requests is threaded. *)
Definition M (A : Type) : Type := list Payload -> result A * list Payload.

Global Instance M_ret : MRet M := fun A a log => (Ok a, log).
Global Instance M_bind : MBind M := fun A B f m log =>
  match m log with
  | (Ok a, log') => f a log'
  | (Raise e, log') => (Raise e, log')
  end.

Definition raise {A} (e : exn) : M A := fun log => (Raise e, log).

Definition lift {A} (r : result A) : M A := fun log => (r, log).

(** [try: body / except Exception as e: handler e] *)
Definition try_except {A} (body : M A) (handler : exn -> M A) : M A :=
  fun log =>
    match body log with
    | (Ok a, log') => (Ok a, log')
    | (Raise e, log') => handler e log'
    end.

Definition post (api : Api) (p : Payload) : M json :=
  fun log => (api log p, log ++ [p]).


(** ** [app/services/query_translator.py] *)

Module QueryTranslator.

(** The attributes [__init__] sets. *)
Record t : Type := {
  api_key : str;
  model : str;
  translation_prompt : str;
}.

Definition CASUAL_CHAT : str := u "CASUAL_CHAT".

Definition translation_payload (self : t) (query : str) : Payload :=
  {| pl_model := model self;
     pl_messages :=
       [{| api_role := SYSTEM; api_content := translation_prompt self |};
        {| api_role := USER; api_content := query |}];
     pl_max_tokens := Some 100;
     pl_temperature := Some (1 # 10) |}.

(** [data.get("choices", [{}])[0].get("message", {}).get("content", "")
    .strip()] *)
Definition translated_text (data : json) : result str :=
  choices ← py_get data (u "choices") (JArr [JObj []]);
  first ← py_first choices;
  message ← py_get first (u "message") (JObj []);
  content ← py_get message (u "content") (JStr []);
  py_strip content.

Definition _call_deepseek_translation (api : Api) (self : t) (query : str)
  : M str :=
  data ← post api (translation_payload self query);
  translated ← lift (translated_text data);
  if str_is_empty translated
  then raise (ValueError (u "Empty translation response from DeepSeek"))
  else mret translated.

(** [translate_query]; [None] is Python's [None]. *)
Definition translate_query (api : Api) (self : t) (original_query : str)
  : M (option str) :=
  if str_is_empty original_query || str_is_empty (strip original_query)
  then mret None
  else
    try_except
      (translated_query ← _call_deepseek_translation api self original_query;
       if str_eqb translated_query CASUAL_CHAT
       then mret None
       else mret (Some translated_query))
      (fun e => mret (Some original_query)).

(** [health_check]: a test translation; [True] unless it gives [None]. *)
Definition health_check (api : Api) (self : t) : M bool :=
  try_except
    (test_result ← translate_query api self (u "тест");
     mret (match test_result with Some _ => true | None => false end))
    (fun e => mret false).

End QueryTranslator.

(** ** [app/services/vector_service.py]: similarity search *)

Module VectorService.

Local Open Scope Q_scope.

Definition Metadata : Type := list (str * str).

(** What [collection.query] returns; each field may be [None]. *)
Record QueryResult : Type := {
  documents : option (list (list str));
  metadatas : option (list (list Metadata));
  distances : option (list (list Q));
}.

(** The Chroma collection and the embedding service, as [search_similar]
    uses them. *)
Record Env : Type := {
  _initialize_client : result unit;
  collection_count : result Z;
  create_embedding : str -> result (list Q);
  collection_query : list Q -> Z -> result QueryResult;
}.

(** An entry of the list [search_similar] returns. *)
Record SearchResult : Type := {
  sr_content : str;
  sr_similarity : Q;
  sr_distance : Q;
  sr_metadata : Metadata;
}.

(** Python's [max(0.0, x)]: the first argument unless the second is
    greater. *)
Definition py_max0 (x : Q) : Q := Qmax 0 x.

(** The conversion of a distance into a similarity (lines 291-299). *)
Definition similarity_of (distance : Q) : Q :=
  if Qle_bool distance 1 then 1 - distance
  else if Qle_bool distance 2 then 1 - distance / 2
  else py_max0 (1 / (1 + distance)).

(** [a < b] on floats. *)
Definition Qlt_bool (a b : Q) : bool := negb (Qle_bool b a).

(** [x or default] for an optional number: [None] and zero are falsy. *)
Definition or_default_Q (x : option Q) (dflt : Q) : Q :=
  match x with
  | Some q => if Qeq_bool q 0 then dflt else q
  | None => dflt
  end.

Definition or_default_Z (x : option Z) (dflt : Z) : Z :=
  match x with
  | Some n => if (n =? 0)%Z then dflt else n
  | None => dflt
  end.

(** [x[0] if x else []] *)
Definition first_or_empty {A} (x : option (list (list A))) : list A :=
  match x with
  | Some (l :: _) => l
  | _ => []
  end.

(** The loop [for i, document in enumerate(documents)], from index [i]. *)
Fixpoint collect (i : nat) (docs : list str) (metas : list Metadata)
    (dists : list Q) (similarity_threshold : Q) : list SearchResult :=
  match docs with
  | [] => []
  | document :: docs' =>
      let distance := nth i dists 1 in
      let similarity := similarity_of distance in
      if Qlt_bool similarity similarity_threshold
      then collect (S i) docs' metas dists similarity_threshold
      else
        {| sr_content := document; sr_similarity := similarity;
           sr_distance := distance; sr_metadata := nth i metas [] |}
        :: collect (S i) docs' metas dists similarity_threshold
  end.

(** [results.sort(key=lambda x: x["similarity"], reverse=True)]: Python's
    sort is stable, also when reversed. *)
Fixpoint insert_by_similarity (x : SearchResult) (l : list SearchResult)
  : list SearchResult :=
  match l with
  | [] => [x]
  | y :: l' =>
      if Qlt_bool (sr_similarity x) (sr_similarity y)
      then y :: insert_by_similarity x l'
      else x :: l
  end.

Definition sort_by_similarity (l : list SearchResult) : list SearchResult :=
  fold_right insert_by_similarity [] l.

(** Lines 281-315: from the answer of the index to the sorted results. *)
Definition rank (search_results : QueryResult) (similarity_threshold : Q)
  : list SearchResult :=
  let results :=
    match documents search_results with
    | Some ((_ :: _) as docs :: _) =>
        collect 0 docs (first_or_empty (metadatas search_results))
          (first_or_empty (distances search_results)) similarity_threshold
    | _ => []
    end in
  sort_by_similarity results.

Definition search_body (env : Env) (cfg : Config) (query : str)
    (limit : option Z) (threshold : option Q) : result (list SearchResult) :=
  _ ← _initialize_client env;
  if str_is_empty (strip query) then Ok []
  else
    let search_limit := or_default_Z limit (VECTOR_SEARCH_LIMIT cfg) in
    let similarity_threshold :=
      or_default_Q threshold (VECTOR_SIMILARITY_THRESHOLD cfg) in
    n ← collection_count env;
    if (n =? 0)%Z then Ok []
    else
      query_embedding ← create_embedding env query;
      search_results ← collection_query env query_embedding search_limit;
      Ok (rank search_results similarity_threshold).

(** [search_similar]: every exception leaves as a [VectorServiceError]. *)
Definition search_similar (env : Env) (cfg : Config) (query : str)
    (limit : option Z) (threshold : option Q) : result (list SearchResult) :=
  try_result (search_body env cfg query limit threshold)
    (fun e => Raise VectorServiceError).

End VectorService.

(** ** [app/services/vector_service.py]: indexing the knowledge base *)

Module KnowledgeBase.

(** [s.split(sep)] for a one-character separator. *)
Fixpoint split (sep : char) (s : str) : list str :=
  match s with
  | [] => [[]]
  | c :: s' =>
      if (c =? sep)%N then [] :: split sep s'
      else
        match split sep s' with
        | l :: ls => (c :: l) :: ls
        | [] => [[c]]
        end
  end.

(** [[line.strip() for line in content.split('\n') if line.strip()]] *)
Definition stripped_lines (content : str) : list str :=
  List.filter (fun line => negb (str_is_empty line))
    (map strip (split 10%N content)).

(** An indexed line: the number in its id [doc_<n>], its text, and the
    metadata [file], [file_path] and [line_number] (the [created_at] stamp
    of the metadata is left out). *)
Record Document : Type := {
  doc_id : nat;
  doc_text : str;
  doc_file : str;
  doc_file_path : str;
  doc_line_number : nat;
}.

(** The loop [for line_num, line in enumerate(lines)] of one file, from
    index [line_num] on, with the running [doc_counter]; returns the
    documents added and the counter. *)
Fixpoint index_lines (file file_path : str) (doc_counter line_num : nat)
    (lines : list str) : list Document * nat :=
  match lines with
  | [] => ([], doc_counter)
  | line :: rest =>
      if (length line <? 10)%nat
      then index_lines file file_path doc_counter (S line_num) rest
      else
        let doc_counter := S doc_counter in
        let '(docs, n) :=
          index_lines file file_path doc_counter (S line_num) rest in
        ({| doc_id := doc_counter; doc_text := line; doc_file := file;
            doc_file_path := file_path;
            doc_line_number := line_num + 1 |} :: docs, n)
  end.

(** A file the walk of [initialize_knowledge_base_sync] reads: a [.txt]
    file of the knowledge base that is not the promotions file, with what
    reading it gives. *)
Record KbFile : Type := {
  kb_name : str;
  kb_path : str;
  kb_read : result str;
}.

(** The loop over the files: a file that cannot be read is skipped. *)
Fixpoint index_files (doc_counter : nat) (files : list KbFile)
  : list Document :=
  match files with
  | [] => []
  | f :: rest =>
      match kb_read f with
      | Ok content =>
          let '(docs, n) :=
            index_lines (kb_name f) (kb_path f) doc_counter 0
              (stripped_lines content) in
          docs ++ index_files n rest
      | Raise _ => index_files doc_counter rest
      end
  end.

End KnowledgeBase.

(** ** More string operations *)

Fixpoint starts_with (p s : str) : bool :=
  match p, s with
  | [], _ => true
  | x :: p', y :: s' => (x =? y)%N && starts_with p' s'
  | _ :: _, [] => false
  end.

(** [sub in s] *)
Fixpoint contains (sub s : str) : bool :=
  starts_with sub s
  || match s with
     | [] => false
     | _ :: s' => contains sub s'
     end.

(** [s.replace(old, new)] for a non-empty [old]: every occurrence, left to
    right, without overlap; [skip] counts the characters of a match still
    to pass over. *)
Fixpoint replace_from (skip : nat) (old new s : str) : str :=
  match s with
  | [] => []
  | c :: s' =>
      match skip with
      | S k => replace_from k old new s'
      | O =>
          if starts_with old s
          then new ++ replace_from (length old - 1) old new s'
          else c :: replace_from 0 old new s'
      end
  end.

Definition replace (old new s : str) : str := replace_from 0 old new s.


(** [x or default] for an optional string: [None] and [""] are falsy. *)
Definition or_str (x : option str) (dflt : str) : str :=
  match x with
  | Some s => if str_is_empty s then dflt else s
  | None => dflt
  end.

(** ** [app/services/prompt_service.py] *)

Module PromptService.

(** What reading a file gives: it does not exist, reading raises, or its
    contents. *)
Inductive file : Type :=
  | Missing
  | Unreadable
  | Contents (s : str).

(** The prompt file of each persona and the promotions file. *)
Record Files : Type := {
  prompt_file : PersonaType -> file;
  promotions_file : file;
}.

(** [f.read().strip()], [None] when the file is absent, unreadable or
    blank. *)
Definition read_stripped (f : file) : option str :=
  match f with
  | Missing => None
  | Unreadable => None
  | Contents s =>
      let text := strip s in
      if str_is_empty text then None else Some text
  end.

Definition _load_prompt_from_file (fs : Files) (persona : PersonaType)
  : option str :=
  read_stripped (prompt_file fs persona).

Definition _get_default_prompt (persona : PersonaType) : str :=
  match persona with
  | BUSINESS =>
      u "Ты - профессиональный консультант технической поддержки онлайн казино. "
      ++ u "Отвечай в деловом стиле, будь вежливым и информативным. "
      ++ u "НЕ выдавай себя за бота или искусственный интеллект."
  | BELLA =>
      u "Привет! Я Белла, твоя помощница в казино! 😊 "
      ++ u "Общаюсь дружелюбно с легким флиртом, но остаюсь профессиональной. "
      ++ u "НЕ выдаю себя за бота или искусственный интеллект."
  | BEN =>
      u "Привет! Я Бэн, твой надежный партнер в казино! 🎯 "
      ++ u "Общаюсь уверенно и по-дружески, помогаю решать любые вопросы. "
      ++ u "НЕ выдаю себя за бота или искусственный интеллект."
  end.

Definition _load_promotions_text (fs : Files) : option str :=
  read_stripped (promotions_file fs).

Definition promotions_placeholder : str := u "{promotions}".
Definition context_placeholder : str := u "{context}".

Definition get_system_prompt (fs : Files) (persona : PersonaType)
    (promotions_info context_info : option str) : str :=
  let prompt_template :=
    or_str (_load_prompt_from_file fs persona) (_get_default_prompt persona) in
  let final_prompt := prompt_template in
  let final_prompt :=
    if contains promotions_placeholder final_prompt
    then
      let promotions_info :=
        match promotions_info with
        | None => _load_promotions_text fs
        | Some _ => promotions_info
        end in
      let promotions_text :=
        or_str promotions_info
          (u "Актуальные промоакции временно недоступны.") in
      replace promotions_placeholder promotions_text final_prompt
    else final_prompt in
  if contains context_placeholder final_prompt
  then
    let context_text := or_str context_info [] in
    let context_section :=
      if str_is_empty context_text then []
      else nl ++ nl ++ u "ДОПОЛНИТЕЛЬНЫЙ КОНТЕКСТ:" ++ nl
           ++ context_text ++ nl in
    replace context_placeholder context_section final_prompt
  else final_prompt.

End PromptService.

(** The prompt service as the context builder calls it; the call may
    raise. *)
Class PromptSource : Type := {
  get_system_prompt : PersonaType -> option str -> option str -> result str;
}.


(** ** [app/services/context_builder.py] *)

Module ContextBuilder.

Record t : Type := {
  system_prompt_threshold : Z;
}.

(** The global instance: [__init__] sets the threshold to 5. *)
Definition context_builder : t := {| system_prompt_threshold := 5 |}.






(** The dictionary [get_context_statistics] returns. *)
Record Statistics : Type := {
  total_messages : Z;
  system_messages : Z;
  user_messages : Z;
  assistant_messages : Z;
  total_tokens_estimate : Z;
}.

(** One turn of the loop of [get_context_statistics]. *)
Definition count_message (stats : Statistics) (message : ApiMessage)
  : Statistics :=
  {| total_messages := total_messages stats;
     system_messages :=
       match api_role message with
       | SYSTEM => system_messages stats + 1
       | _ => system_messages stats
       end;
     user_messages :=
       match api_role message with
       | USER => user_messages stats + 1
       | _ => user_messages stats
       end;
     assistant_messages :=
       match api_role message with
       | ASSISTANT => assistant_messages stats + 1
       | _ => assistant_messages stats
       end;
     total_tokens_estimate :=
       total_tokens_estimate stats
       + Z.of_nat (length (api_content message)) / 4 |}.

Definition get_context_statistics (context_messages : list ApiMessage)
  : Statistics :=
  fold_left count_message context_messages
    {| total_messages := Z.of_nat (length context_messages);
       system_messages := 0; user_messages := 0; assistant_messages := 0;
       total_tokens_estimate := 0 |}.

End ContextBuilder.

(** ** [app/services/ai_service.py]: the generation orchestrator *)

Module AIService.

(** The attributes [__init__] sets. *)
Record t : Type := {
  api_key : str;
  api_base : str;
  model : str;
}.

(** The global services and what they stand on. [store] is the database
    as a read finds it, or the exception of the read; [format_2f] renders
    a float with two decimals (["{:.2f}"]). *)
Record Env : Type := {
  config : Config;
  now : Z;
  store : result Database.db;
  vector_service : VectorService.Env;
  query_translator : QueryTranslator.t;
  prompt_service : PromptSource;
  context_builder : ContextBuilder.t;
  format_2f : Q -> str;
}.








End AIService.

(** ** Vocabulary of the properties *)

Module StoreSpec.
Import Database.

(** [desc a b]: [a] may stand before [b] in descending recency order. *)
Definition desc (a b : row) : Prop := newer b a = false.

(** The store's invariant: ids are a key of [messages], and none is above
    the AUTOINCREMENT counter. *)
Definition wf (d : db) : Prop :=
  NoDup (map row_id (messages d)) /\
  Forall (fun r => row_id r <= sqlite_sequence d) (messages d).

(** [LIMIT] always takes a prefix. *)
Definition limit_len {A} (n : Z) (l : list A) : nat :=
  if n <? 0 then length l else Z.to_nat n.

(** The row [insert_message] writes for [m] under the id [k]. *)
Definition stored_as (k : Z) (m : Message) : row :=
  {| row_id := k; row_chat_id := chat_id m; row_user_id := user_id m;
     row_message_id := message_id m; row_role := role m;
     row_content := content m; row_persona_type := persona_type m;
     row_created_at := created_at m |}.

(** The rows of chat [c], newest first. *)
Definition candidates (c : Z) (d : db) : list row :=
  order_by_created_at_desc (List.filter (of_chat c) (messages d)).

(** The database in which the trim of [save_message] runs. *)
Definition inserted (now : Z) (m : Message) (d : db) : db :=
  _update_message_count now (chat_id m) (snd (insert_message m d)).


End StoreSpec.

Module StrSpec.

(** [blank s]: [s] is empty or consists only of whitespace. *)
Definition blank (s : str) : bool := forallb isspace s.

End StrSpec.

Module SearchSpec.
Import VectorService.
Local Open Scope Q_scope.

(** [by_similarity a b]: [a] may stand before [b] in the sorted list. *)
Definition by_similarity (a b : SearchResult) : Prop :=
  sr_similarity b <= sr_similarity a.


(** The pair's similarity is not strictly below the threshold. *)
Definition kept (threshold : Q) (p : str * Q) : bool :=
  negb (Qlt_bool (similarity_of (snd p)) threshold).



End SearchSpec.

Module ContextSpec.



End ContextSpec.

Module OrchestratorSpec.



End OrchestratorSpec.

(** ** Sample inputs *)

Module Samples.

(** A user turn of chat [c] written at time [t]. *)
Definition turn (c t : Z) : Message :=
  {| id := None; chat_id := c; user_id := Some 1; message_id := Some t;
     role := USER; content := u "hi"; persona_type := BUSINESS;
     created_at := t |}.

(** [n] turns of chat [c], one a second from time 1 on, each saved at the
    time it was written. *)
Definition turns (c : Z) (n : nat) : list (Z * Message) :=
  map (fun k => (Z.of_nat k, turn c (Z.of_nat k))) (seq 1 n).

(** A configuration that retains two messages a chat. *)
Definition small_config : Config :=
  {| MESSAGE_HISTORY_LIMIT := 2;
     VECTOR_SEARCH_LIMIT := 8;
     VECTOR_SIMILARITY_THRESHOLD := 7 # 10 |}.

(** A store in which chat 7 has had three turns, at times 1, 2 and 3. *)
Definition busy_db : Database.db :=
  Database.save_all small_config (turns 7 3) Database.empty_db.

(** A knowledge base of one readable and one unreadable file. *)
Definition kb_files : list KnowledgeBase.KbFile :=
  [{| KnowledgeBase.kb_name := u "faq.txt";
      KnowledgeBase.kb_path := u "kb/faq.txt";
      KnowledgeBase.kb_read :=
        Ok (u "  Minimum deposit is 10 USD  " ++ nl ++ nl ++ u "short"
            ++ nl ++ u "Withdrawals take 3 days") |};
   {| KnowledgeBase.kb_name := u "old.txt";
      KnowledgeBase.kb_path := u "kb/old.txt";
      KnowledgeBase.kb_read := Raise OtherError |}].

(** The second document of [kb_files]. *)
Definition kb_doc : KnowledgeBase.Document :=
  {| KnowledgeBase.doc_id := 2;
     KnowledgeBase.doc_text := u "Withdrawals take 3 days";
     KnowledgeBase.doc_file := u "faq.txt";
     KnowledgeBase.doc_file_path := u "kb/faq.txt";
     KnowledgeBase.doc_line_number := 3 |}.

(** A prompt file with the context placeholder only. *)
Definition context_template : PromptService.Files :=
  {| PromptService.prompt_file := fun _ =>
       PromptService.Contents
         (u "You are a consultant." ++ PromptService.context_placeholder
          ++ u " Answer briefly.");
     PromptService.promotions_file := PromptService.Missing |}.

Definition translator : QueryTranslator.t :=
  {| QueryTranslator.api_key := u "key";
     QueryTranslator.model := u "deepseek-chat";
     QueryTranslator.translation_prompt := u "Translate this query:" |}.

(** An API that times out on every request. *)
Definition api_down : Api := fun _ _ => Raise HTTPError.



(** A vector service whose index holds, and returns, [pairs]: documents
    with their distances to the query. *)
Definition index_of (pairs : list (str * Q)) : VectorService.Env :=
  {| VectorService._initialize_client := Ok tt;
     VectorService.collection_count := Ok (Z.of_nat (length pairs));
     VectorService.create_embedding := fun _ => Ok [1%Q];
     VectorService.collection_query := fun _ _ =>
       Ok {| VectorService.documents := Some [map fst pairs];
             VectorService.metadatas := None;
             VectorService.distances := Some [map snd pairs] |} |}.

Definition found : list (str * Q) :=
  [(u "deposit limits", 1 # 2); (u "bonus rules", 1 # 10);
   (u "bonus terms", 1 # 10); (u "withdrawal", 3 # 2)]%Q.


(** No prompt file and no promotions file on disk. *)
Definition no_files : PromptService.Files :=
  {| PromptService.prompt_file := fun _ => PromptService.Missing;
     PromptService.promotions_file := PromptService.Missing |}.





End Samples.
(** ** Facts about the conversation store *)

Module DatabaseFacts.
Import Database.
Export StoreSpec.

Ltac newer_lia :=
  unfold desc, newer in *;
  rewrite ?orb_false_iff, ?andb_false_iff, ?orb_true_iff, ?andb_true_iff,
    ?Z.ltb_lt, ?Z.ltb_ge, ?Z.eqb_eq, ?Z.eqb_neq in *;
  lia.

Lemma newer_asym a b : newer a b = true -> newer b a = false.
Proof. intros H. newer_lia. Qed.

Lemma desc_trans a b c : desc a b -> desc b c -> desc a c.
Proof. intros H1 H2. newer_lia. Qed.

Lemma desc_total_id a b :
  row_id a <> row_id b -> desc a b -> newer a b = true.
Proof. intros Hne H. newer_lia. Qed.

Lemma insert_desc_perm x l : Permutation (insert_desc x l) (x :: l).
Proof.
  induction l as [|y l IH]; simpl; [reflexivity|].
  destruct (newer y x); [|reflexivity].
  etransitivity; [apply perm_skip, IH | apply perm_swap].
Qed.

Lemma order_perm rows : Permutation (order_by_created_at_desc rows) rows.
Proof.
  induction rows as [|x rows IH]; simpl; [reflexivity|].
  etransitivity; [apply insert_desc_perm | apply perm_skip, IH].
Qed.

Lemma insert_desc_sorted x l :
  StronglySorted desc l -> StronglySorted desc (insert_desc x l).
Proof.
  induction 1 as [|y l Hs IH Hall]; simpl.
  - repeat constructor.
  - destruct (newer y x) eqn:E.
    + constructor; [exact IH|].
      eapply Permutation_Forall; [symmetry; apply insert_desc_perm|].
      constructor; [apply newer_asym, E | exact Hall].
    + constructor; [constructor; assumption|].
      constructor; [exact E|].
      eapply List.Forall_impl; [|exact Hall].
      intros z Hz. eapply desc_trans; [exact E | exact Hz].
Qed.

Lemma order_sorted rows : StronglySorted desc (order_by_created_at_desc rows).
Proof.
  induction rows as [|x rows IH]; simpl; [constructor|].
  apply insert_desc_sorted, IH.
Qed.

(** In a sorted list every row of a prefix stands before every row of the
    rest. *)
Lemma sorted_take_drop n l a b :
  StronglySorted desc l -> In a (firstn n l) -> In b (skipn n l) -> desc a b.
Proof.
  intros Hs. revert n. induction Hs as [|y l Hs IH Hall]; intros n Ha Hb.
  - rewrite firstn_nil in Ha. destruct Ha.
  - destruct n as [|n]; simpl in *; [destruct Ha|].
    destruct Ha as [<-|Ha].
    + rewrite List.Forall_forall in Hall. apply Hall.
      rewrite <- (firstn_skipn n l). apply in_or_app. right. exact Hb.
    + eapply IH; eassumption.
Qed.

(** Filtering commutes with permutations. *)
Lemma filter_perm {A} (f : A -> bool) (l l' : list A) :
  Permutation l l' -> Permutation (List.filter f l) (List.filter f l').
Proof.
  induction 1 as [|x l l' _ IH|x y l|l l' l'' _ IH1 _ IH2]; simpl.
  - reflexivity.
  - destruct (f x); [apply perm_skip|]; exact IH.
  - destruct (f x), (f y); try reflexivity. apply perm_swap.
  - etransitivity; eassumption.
Qed.

Lemma id_in_spec ids r : id_in ids r = true <-> In (row_id r) ids.
Proof.
  unfold id_in. rewrite existsb_exists. split.
  - intros (k & Hk & E). apply Z.eqb_eq in E. congruence.
  - intros H. exists (row_id r). split; [exact H | apply Z.eqb_refl].
Qed.

Lemma filter_id_in_all l :
  List.filter (id_in (map row_id l)) l = l.
Proof.
  assert (G : forall ids, incl (map row_id l) ids ->
                          List.filter (id_in ids) l = l).
  { induction l as [|x l IH]; intros ids Hi; simpl; [reflexivity|].
    assert (Hx : id_in ids x = true).
    { apply id_in_spec, Hi. left. reflexivity. }
    rewrite Hx. f_equal. apply IH. intros k Hk. apply Hi. right. exact Hk. }
  apply G, incl_refl.
Qed.

Lemma filter_id_in_none ids l :
  (forall r, In r l -> ~ In (row_id r) ids) -> List.filter (id_in ids) l = [].
Proof.
  induction l as [|x l IH]; intros H; simpl; [reflexivity|].
  destruct (id_in ids x) eqn:E.
  - apply id_in_spec in E. exfalso. eapply H; [left; reflexivity | exact E].
  - apply IH. intros r Hr. apply H. right. exact Hr.
Qed.

(** With distinct ids, selecting the rows whose id is among those of a
    prefix [firstn n s] of a reordering [s] of [l] gives that prefix back. *)
Lemma filter_ids_of_prefix n l s :
  NoDup (map row_id l) -> Permutation s l ->
  Permutation (List.filter (id_in (map row_id (firstn n s))) l) (firstn n s).
Proof.
  intros Hnd Hp.
  etransitivity; [apply filter_perm; symmetry; exact Hp|].
  rewrite <- (firstn_skipn n s) at 2.
  rewrite List.filter_app, filter_id_in_all, filter_id_in_none.
  - rewrite app_nil_r. reflexivity.
  - intros r Hr Hin.
    assert (Hnd' : NoDup (map row_id (firstn n s) ++ map row_id (skipn n s))).
    { rewrite <- map_app, firstn_skipn.
      rewrite (Permutation_map row_id Hp). exact Hnd. }
    apply NoDup_app in Hnd' as (_ & Hdisj & _).
    apply (Hdisj (row_id r)).
    + apply list_elem_of_In. exact Hin.
    + apply list_elem_of_In, in_map, Hr.
Qed.

Lemma wf_empty : wf empty_db.
Proof. split; constructor. Qed.

Lemma in_filter_ids (f : row -> bool) l k :
  In k (map row_id (List.filter f l)) -> In k (map row_id l).
Proof.
  rewrite !in_map_iff. intros (r & E & Hr).
  apply filter_In in Hr as [Hr _]. eauto.
Qed.

Lemma NoDup_filter_ids (f : row -> bool) l :
  NoDup (map row_id l) -> NoDup (map row_id (List.filter f l)).
Proof.
  induction l as [|x l IH]; simpl; [intros; constructor|].
  rewrite NoDup_cons. intros [Hx Hl].
  destruct (f x); simpl; [|auto].
  apply NoDup_cons. split; [|auto].
  rewrite list_elem_of_In in *. intros Hin. apply Hx.
  eapply in_filter_ids, Hin.
Qed.

Lemma Forall_filter_rows (P : row -> Prop) (f : row -> bool) l :
  Forall P l -> Forall P (List.filter f l).
Proof.
  rewrite !List.Forall_forall. intros H r Hr.
  apply filter_In in Hr as [Hr _]. auto.
Qed.

Lemma wf_insert m d : wf d -> wf (snd (insert_message m d)).
Proof.
  intros [Hnd Hle]. split; simpl.
  - rewrite map_app. simpl. apply NoDup_app. split; [exact Hnd|].
    split; [|apply NoDup_singleton].
    intros k Hk Hk'. apply list_elem_of_In in Hk, Hk'.
    destruct Hk' as [<-|[]].
    apply in_map_iff in Hk as (r & E & Hr).
    rewrite List.Forall_forall in Hle. specialize (Hle r Hr). lia.
  - apply Forall_app. split.
    + eapply List.Forall_impl; [|exact Hle]. simpl. intros; lia.
    + repeat constructor. simpl. lia.
Qed.

Lemma wf_update_count now c d : wf d -> wf (_update_message_count now c d).
Proof. intros H. exact H. Qed.

Lemma wf_cleanup cfg c d : wf d -> wf (_cleanup_old_messages cfg c d).
Proof.
  intros [Hnd Hle]. split; simpl.
  - apply NoDup_filter_ids, Hnd.
  - apply Forall_filter_rows, Hle.
Qed.

Lemma wf_save_message cfg now m d :
  wf d -> wf (snd (save_message cfg now m d)).
Proof.
  intros H. unfold save_message.
  destruct (insert_message m d) as [k d1] eqn:E. simpl.
  apply wf_cleanup, wf_update_count.
  change d1 with (snd (k, d1)). rewrite <- E. apply wf_insert, H.
Qed.

Lemma wf_save_all cfg ms d : wf d -> wf (save_all cfg ms d).
Proof.
  revert d. induction ms as [|[now m] ms IH]; intros d H; simpl; [exact H|].
  apply IH, wf_save_message, H.
Qed.

Lemma wf_clear now c d : wf d -> wf (snd (clear_chat_history now c d)).
Proof.
  intros [Hnd Hle]. split; simpl.
  - apply NoDup_filter_ids, Hnd.
  - apply Forall_filter_rows, Hle.
Qed.

(** [LIMIT] always takes a prefix. *)
Lemma sql_limit_firstn {A} n (l : list A) :
  sql_limit n l = firstn (limit_len n l) l.
Proof.
  unfold sql_limit, limit_len. destruct (n <? 0); [|reflexivity].
  symmetry. apply firstn_all.
Qed.

Lemma length_sql_limit {A} n (l : list A) :
  0 <= n -> Z.of_nat (length (sql_limit n l)) = Z.min n (Z.of_nat (length l)).
Proof.
  intros Hn. unfold sql_limit.
  destruct (n <? 0) eqn:E; [apply Z.ltb_lt in E; lia|].
  rewrite length_firstn. lia.
Qed.

(** The rows of chat [c] that the trim leaves are the rows the subquery
    selected. *)
Lemma cleanup_filter_chat keep c rows :
  List.filter (of_chat c)
    (List.filter (fun r => negb (of_chat c r && negb (id_in keep r))) rows)
  = List.filter (id_in keep) (List.filter (of_chat c) rows).
Proof.
  induction rows as [|x rows IH]; simpl; [reflexivity|].
  destruct (of_chat c x) eqn:Ec, (id_in keep x) eqn:Ek; simpl;
    rewrite ?Ec, ?Ek; simpl; rewrite ?Ec; congruence.
Qed.

Lemma cleanup_other_chat keep c c' rows :
  c' <> c ->
  List.filter (of_chat c')
    (List.filter (fun r => negb (of_chat c r && negb (id_in keep r))) rows)
  = List.filter (of_chat c') rows.
Proof.
  intros Hne. induction rows as [|x rows IH]; simpl; [reflexivity|].
  unfold of_chat in *.
  destruct (row_chat_id x =? c) eqn:Ec, (row_chat_id x =? c') eqn:Ec';
    simpl; rewrite ?Ec'; simpl; try congruence.
  - apply Z.eqb_eq in Ec, Ec'. congruence.
  - destruct (id_in keep x); simpl; rewrite ?Ec'; congruence.
Qed.

Lemma cleanup_kept cfg c d :
  wf d ->
  Permutation
    (List.filter (of_chat c) (messages (_cleanup_old_messages cfg c d)))
    (sql_limit (MESSAGE_HISTORY_LIMIT cfg)
       (order_by_created_at_desc (List.filter (of_chat c) (messages d)))).
Proof.
  intros [Hnd _]. unfold _cleanup_old_messages, newest_ids. simpl.
  rewrite cleanup_filter_chat, sql_limit_firstn.
  apply filter_ids_of_prefix; [apply NoDup_filter_ids, Hnd | apply order_perm].
Qed.

Lemma count_after_insert m d :
  count_messages (chat_id m) (messages (snd (insert_message m d)))
  = count_messages (chat_id m) (messages d) + 1.
Proof.
  unfold count_messages. simpl. rewrite List.filter_app. simpl.
  unfold of_chat at 2. simpl. rewrite Z.eqb_refl, length_app. simpl. lia.
Qed.

Lemma save_message_snd cfg now m d :
  snd (save_message cfg now m d)
  = _cleanup_old_messages cfg (chat_id m)
      (_update_message_count now (chat_id m) (snd (insert_message m d))).
Proof. reflexivity. Qed.

(** After [save_message] the chat holds [min H (n + 1)] messages, [n] being
    what it held before. *)
Lemma save_message_stored cfg now m d :
  wf d -> 0 <= MESSAGE_HISTORY_LIMIT cfg ->
  count_messages (chat_id m) (messages (snd (save_message cfg now m d)))
  = Z.min (MESSAGE_HISTORY_LIMIT cfg)
      (count_messages (chat_id m) (messages d) + 1).
Proof.
  intros Hwf HH. rewrite save_message_snd.
  set (d1 := snd (insert_message m d)).
  assert (Hwf1 : wf (_update_message_count now (chat_id m) d1)).
  { apply wf_update_count, wf_insert, Hwf. }
  unfold count_messages at 1.
  rewrite (Permutation_length (cleanup_kept cfg (chat_id m) _ Hwf1)).
  rewrite length_sql_limit by exact HH.
  rewrite (Permutation_length (order_perm _)).
  change (messages (_update_message_count now (chat_id m) d1))
    with (messages d1).
  fold (count_messages (chat_id m) (messages d1)).
  unfold d1. rewrite count_after_insert. reflexivity.
Qed.

(** Retention is bounded: at most [H] messages of the chat are stored. *)
Lemma save_message_bounded cfg now m d :
  wf d -> 0 <= MESSAGE_HISTORY_LIMIT cfg ->
  count_messages (chat_id m) (messages (snd (save_message cfg now m d)))
  <= MESSAGE_HISTORY_LIMIT cfg.
Proof. intros Hwf HH. rewrite save_message_stored by assumption. lia. Qed.

(** The messages of the other chats are left alone. *)
Lemma save_message_other_chat cfg now m d c :
  c <> chat_id m ->
  List.filter (of_chat c) (messages (snd (save_message cfg now m d)))
  = List.filter (of_chat c) (messages d).
Proof.
  intros Hne. unfold save_message, insert_message. simpl.
  rewrite cleanup_other_chat by exact Hne.
  rewrite List.filter_app. simpl. unfold of_chat at 2. simpl.
  destruct (chat_id m =? c) eqn:E; [apply Z.eqb_eq in E; congruence|].
  apply app_nil_r.
Qed.

(** What is kept is what is most recent: a row of the chat that the trim
    deletes is older, by ([created_at], id), than every row it keeps. *)
Lemma cleanup_keeps_newest cfg c d kept gone :
  wf d ->
  In kept (messages (_cleanup_old_messages cfg c d)) -> of_chat c kept = true ->
  In gone (messages d) -> of_chat c gone = true ->
  ~ In gone (messages (_cleanup_old_messages cfg c d)) ->
  newer kept gone = true.
Proof.
  intros Hwf Hk Hkc Hg Hgc Hng.
  pose proof (cleanup_kept cfg c d Hwf) as Hp.
  rewrite sql_limit_firstn in Hp.
  set (s := order_by_created_at_desc (List.filter (of_chat c) (messages d))) in *.
  set (n := limit_len (MESSAGE_HISTORY_LIMIT cfg) s) in *.
  assert (Hks : In kept (firstn n s)).
  { eapply Permutation_in; [exact Hp|]. apply filter_In. auto. }
  assert (Hgs : In gone s).
  { eapply Permutation_in; [symmetry; apply order_perm|].
    apply filter_In. auto. }
  assert (Hgd : In gone (skipn n s)).
  { rewrite <- (firstn_skipn n s) in Hgs. apply in_app_or in Hgs as [Hgs|Hgs];
      [|exact Hgs].
    exfalso. apply Hng.
    eapply Permutation_in in Hgs; [|symmetry; exact Hp].
    apply filter_In in Hgs as [Hgs _]. exact Hgs. }
  apply desc_total_id.
  - intros Heq.
    assert (Hnd : NoDup (map row_id (firstn n s) ++ map row_id (skipn n s))).
    { rewrite <- map_app, firstn_skipn. unfold s.
      rewrite (Permutation_map row_id (order_perm _)).
      apply NoDup_filter_ids, Hwf. }
    apply NoDup_app in Hnd as (_ & Hdisj & _).
    apply (Hdisj (row_id kept)); apply list_elem_of_In.
    + apply in_map, Hks.
    + rewrite Heq. apply in_map, Hgd.
  - eapply sorted_take_drop; [apply order_sorted | exact Hks | exact Hgd].
Qed.

(** The counter is the COUNT taken after the INSERT and before the trim. *)
Lemma save_message_counter cfg now m d :
  st_count <$> chat_states (snd (save_message cfg now m d)) !! chat_id m
  = Some (count_messages (chat_id m) (messages d) + 1).
Proof.
  rewrite save_message_snd. unfold _cleanup_old_messages.
  cbn [chat_states _update_message_count].
  rewrite lookup_insert_eq. cbn [fmap option_fmap option_map st_count].
  f_equal. apply count_after_insert.
Qed.

(** Once a chat holds [H] messages, every further [save_message] leaves
    [H] messages stored and a counter of [H + 1]. *)
Lemma save_message_counter_at_capacity cfg now m d :
  wf d -> 0 <= MESSAGE_HISTORY_LIMIT cfg ->
  count_messages (chat_id m) (messages d) = MESSAGE_HISTORY_LIMIT cfg ->
  let d' := snd (save_message cfg now m d) in
  count_messages (chat_id m) (messages d') = MESSAGE_HISTORY_LIMIT cfg /\
  st_count <$> chat_states d' !! chat_id m
  = Some (MESSAGE_HISTORY_LIMIT cfg + 1).
Proof.
  intros Hwf HH Hc. split.
  - rewrite save_message_stored by assumption. lia.
  - rewrite save_message_counter, Hc. reflexivity.
Qed.

End DatabaseFacts.

(** ** Facts about the conversation store: the claims *)

Module StoreClaims.
Import Database DatabaseFacts.

(** C1 (the code departs from the claim). With the default limit of 20,
    after 21 calls of [save_message] for one chat 20 messages are stored
    and [get_chat_history] returns 20, but the stored counter
    [message_count] is 21: it is taken after the INSERT and before the
    trim, and so exceeds the limit. *)
Theorem save_message_counter_exceeds_limit :
  let d := save_all default_config (Samples.turns 7 21) empty_db in
  MESSAGE_HISTORY_LIMIT default_config = 20 /\
  count_messages 7 (messages d) = 20 /\
  length (get_chat_history default_config 22 d 7 None None) = 20%nat /\
  message_count (fst (get_chat_state 22 7 d)) = 21.
Proof. vm_compute. repeat split; reflexivity. Qed.

(** C8. [clear_chat_history] deletes every message of the chat and returns
    how many there were; a following [get_chat_state] reports a count of 0
    and the persona that [get_chat_state] reported before the clear; a
    state row that existed still exists, with its persona; the messages
    and the state rows of the other chats are untouched. *)
Theorem clear_chat_history_resets_count (now now' : Z) (c : Z) (d : db) :
  let deleted := fst (clear_chat_history now c d) in
  let d1 := snd (clear_chat_history now c d) in
  let state := fst (get_chat_state now' c d1) in
  deleted = count_messages c (messages d) /\
  List.filter (of_chat c) (messages d1) = [] /\
  message_count state = 0 /\
  current_persona state = current_persona (fst (get_chat_state now c d)) /\
  (forall s, chat_states d !! c = Some s ->
     exists s', chat_states d1 !! c = Some s' /\
                st_persona s' = st_persona s /\ st_count s' = 0) /\
  (forall c', c' <> c ->
     List.filter (of_chat c') (messages d1)
     = List.filter (of_chat c') (messages d) /\
     chat_states d1 !! c' = chat_states d !! c').
Proof.
  cbn zeta. split; [reflexivity|]. split; [|split; [|split; [|split]]].
  - simpl. induction (messages d) as [|r rows IH]; simpl; [reflexivity|].
    destruct (of_chat c r) eqn:E; simpl; rewrite ?E; exact IH.
  - unfold get_chat_state, clear_chat_history. simpl.
    destruct (chat_states d !! c) as [s|] eqn:E.
    + rewrite lookup_insert_eq. reflexivity.
    + rewrite E. reflexivity.
  - unfold get_chat_state, clear_chat_history. simpl.
    destruct (chat_states d !! c) as [s|] eqn:E.
    + rewrite lookup_insert_eq. reflexivity.
    + rewrite E. reflexivity.
  - intros s Hs. simpl. rewrite Hs.
    eexists. split; [apply lookup_insert_eq|]. split; reflexivity.
  - intros c' Hne. split.
    + simpl. induction (messages d) as [|r rows IH]; simpl; [reflexivity|].
      unfold of_chat in *.
      destruct (row_chat_id r =? c) eqn:E, (row_chat_id r =? c') eqn:E';
        simpl; rewrite ?E'; try congruence.
      apply Z.eqb_eq in E, E'. congruence.
    + simpl. destruct (chat_states d !! c); [|reflexivity].
      apply lookup_insert_ne. congruence.
Qed.

End StoreClaims.

(** ** Facts about strings *)

Module StrFacts.
Export StrSpec.

Lemma lstrip_blank s : blank s = true -> lstrip s = [].
Proof.
  induction s as [|c s IH]; simpl; [reflexivity|].
  intros H. apply andb_true_iff in H as [Hc Hs]. rewrite Hc. auto.
Qed.

Lemma lstrip_nil_blank s : lstrip s = [] -> blank s = true.
Proof.
  induction s as [|c s IH]; simpl; [reflexivity|].
  destruct (isspace c); [auto | discriminate].
Qed.

Lemma lstrip_head s c s' : lstrip s = c :: s' -> isspace c = false.
Proof.
  induction s as [|x s IH]; simpl; [discriminate|].
  destruct (isspace x) eqn:E; [exact IH|].
  intros H. injection H as <- _. exact E.
Qed.

Lemma blank_rev s : blank (rev s) = blank s.
Proof.
  unfold blank. induction s as [|c s IH]; simpl; [reflexivity|].
  rewrite forallb_app, IH. simpl. rewrite andb_true_r. apply andb_comm.
Qed.

Lemma strip_blank s : blank s = true -> strip s = [].
Proof.
  intros H. unfold strip, rstrip. rewrite (lstrip_blank s H). reflexivity.
Qed.

Lemma strip_nil_blank s : strip s = [] -> blank s = true.
Proof.
  unfold strip, rstrip. intros H.
  assert (H1 : lstrip (rev (lstrip s)) = []).
  { destruct (lstrip (rev (lstrip s))); [reflexivity|].
    simpl in H. apply app_eq_nil in H as [_ H]. discriminate. }
  apply lstrip_nil_blank in H1. rewrite blank_rev in H1.
  destruct (lstrip s) as [|c s'] eqn:E; [apply lstrip_nil_blank, E|].
  apply lstrip_head in E. simpl in H1. rewrite E in H1. discriminate.
Qed.

Lemma strip_empty_iff s : str_is_empty (strip s) = blank s.
Proof.
  destruct (blank s) eqn:E.
  - rewrite strip_blank by exact E. reflexivity.
  - destruct (strip s) eqn:Es; [|reflexivity].
    apply strip_nil_blank in Es. congruence.
Qed.

Lemma str_is_empty_true s : str_is_empty s = true <-> s = [].
Proof. destruct s; simpl; split; congruence. Qed.

Lemma str_is_empty_false s : str_is_empty s = false <-> s <> [].
Proof. destruct s; simpl; split; congruence. Qed.

End StrFacts.

(** ** Facts about the query translator *)

Module TranslatorFacts.
Import QueryTranslator StrFacts.

(** On blank input: [None], and the log is as it was. *)
Lemma translate_blank api self q log :
  blank q = true -> translate_query api self q log = (Ok None, log).
Proof.
  intros H. unfold translate_query.
  rewrite strip_empty_iff, H, orb_true_r. reflexivity.
Qed.

(** On other input exactly one request is sent. *)
Lemma translate_sends api self q log :
  blank q = false ->
  snd (translate_query api self q log) = log ++ [translation_payload self q].
Proof.
  intros H. unfold translate_query.
  rewrite strip_empty_iff, H, orb_false_r.
  assert (Hq : str_is_empty q = false) by (destruct q; [discriminate|reflexivity]).
  rewrite Hq.
  unfold try_except, _call_deepseek_translation, mbind, M_bind, post, lift,
    raise, mret, M_ret.
  destruct (api log (translation_payload self q)) as [data|e];
    [|reflexivity].
  destruct (translated_text data) as [text|e]; [|reflexivity].
  destruct (str_is_empty text); [reflexivity|].
  destruct (str_eqb text CASUAL_CHAT); reflexivity.
Qed.

(** What the call gives when it is made. *)
Lemma translate_nonblank api self q log :
  blank q = false ->
  fst (translate_query api self q log)
  = match fst (_call_deepseek_translation api self q log) with
    | Ok text => Ok (if str_eqb text CASUAL_CHAT then None else Some text)
    | Raise _ => Ok (Some q)
    end.
Proof.
  intros H. unfold translate_query.
  rewrite strip_empty_iff, H, orb_false_r.
  assert (Hq : str_is_empty q = false) by (destruct q; [discriminate|reflexivity]).
  rewrite Hq.
  unfold try_except, mbind, M_bind, mret, M_ret.
  destruct (_call_deepseek_translation api self q log) as [[text|e] log'];
    [|reflexivity].
  simpl. destruct (str_eqb text CASUAL_CHAT); reflexivity.
Qed.

(** A translation that is returned is not empty. *)
Lemma call_nonempty api self q log text :
  fst (_call_deepseek_translation api self q log) = Ok text -> text <> [].
Proof.
  unfold _call_deepseek_translation, mbind, M_bind, post, lift, raise, mret,
    M_ret.
  destruct (api log (translation_payload self q)) as [data|e];
    [|discriminate].
  destruct (translated_text data) as [t|e]; [|discriminate].
  destruct (str_is_empty t) eqn:E; [discriminate|].
  simpl. intros [= <-]. apply str_is_empty_false, E.
Qed.

(** C9. On an input that is empty or consists only of whitespace,
    [translate_query] returns [None] and sends no request: the log of
    requests is unchanged. *)
Theorem translate_query_blank_no_call
    (api : Api) (self : t) (q : str) (log : list Payload) :
  blank q = true ->
  translate_query api self q log = (Ok None, log).
Proof. apply translate_blank. Qed.

Lemma translate_query_blank_no_call_witness :
  blank (u "   ") = true /\
  translate_query Samples.api_down Samples.translator (u "   ") []
  = (Ok None, []).
Proof.
  split; [reflexivity|].
  apply (translate_query_blank_no_call Samples.api_down Samples.translator
           (u "   ") []).
  reflexivity.
Defined.



(** C10. What [translate_query] returns is [None] or a non-empty string,
    never the empty string (and never an exception). *)
Theorem translate_query_none_or_nonempty
    (api : Api) (self : t) (q : str) (log : list Payload) :
  match fst (translate_query api self q log) with
  | Ok None => True
  | Ok (Some s) => s <> []
  | Raise _ => False
  end.
Proof.
  destruct (blank q) eqn:Hb.
  - rewrite translate_blank by exact Hb. exact I.
  - rewrite translate_nonblank by exact Hb.
    destruct (fst (_call_deepseek_translation api self q log)) as [text|e]
      eqn:E.
    + destruct (str_eqb text CASUAL_CHAT); [exact I|].
      eapply call_nonempty, E.
    + intros ->. discriminate.
Qed.

End TranslatorFacts.

(** ** Facts about the similarity search *)

Module VectorFacts.
Import VectorService StrSpec.
Local Open Scope Q_scope.

Lemma Qle_bool_false x y : Qle_bool x y = false <-> y < x.
Proof.
  split.
  - intros H. apply Qnot_le_lt. intros Hle.
    apply Qle_bool_iff in Hle. congruence.
  - intros H. destruct (Qle_bool x y) eqn:E; [|reflexivity].
    apply Qle_bool_iff in E. lra.
Qed.

Lemma Qlt_bool_iff x y : Qlt_bool x y = true <-> x < y.
Proof.
  unfold Qlt_bool. rewrite negb_true_iff. apply Qle_bool_false.
Qed.

Lemma Qlt_bool_false x y : Qlt_bool x y = false <-> y <= x.
Proof.
  unfold Qlt_bool. rewrite negb_false_iff. apply Qle_bool_iff.
Qed.

(** Division by two, for [lra]. *)
Ltac halves := unfold Qdiv; change (/ 2) with (1 # 2).

Lemma py_max0_pos x : 0 < x -> py_max0 x = x.
Proof.
  intros H. unfold py_max0, Qmax, GenericMinMax.gmax.
  assert (E : (0 ?= x) = Lt) by (apply Qlt_alt; exact H).
  rewrite E. reflexivity.
Qed.

Lemma inv_succ_pos d : 2 < d -> 0 < 1 / (1 + d).
Proof.
  intros H. unfold Qdiv. rewrite Qmult_1_l. apply Qinv_lt_0_compat. lra.
Qed.

(** The three bands of the conversion. *)
Lemma similarity_band1 d : d <= 1 -> similarity_of d = 1 - d.
Proof.
  intros H. unfold similarity_of.
  apply Qle_bool_iff in H. rewrite H. reflexivity.
Qed.

Lemma similarity_band2 d : 1 < d -> d <= 2 -> similarity_of d = 1 - d / 2.
Proof.
  intros H1 H2. unfold similarity_of.
  apply Qle_bool_false in H1. apply Qle_bool_iff in H2.
  rewrite H1, H2. reflexivity.
Qed.

Lemma similarity_band3 d : 2 < d -> similarity_of d = 1 / (1 + d).
Proof.
  intros H. unfold similarity_of.
  assert (H1 : Qle_bool d 1 = false) by (apply Qle_bool_false; lra).
  assert (H2 : Qle_bool d 2 = false) by (apply Qle_bool_false; lra).
  rewrite H1, H2. apply py_max0_pos, inv_succ_pos, H.
Qed.



(** Inside one band a smaller distance gives a similarity at least as
    great. *)
Lemma similarity_monotone_band1 d1 d2 :
  d1 <= d2 -> d2 <= 1 -> similarity_of d2 <= similarity_of d1.
Proof.
  intros H H2. rewrite !similarity_band1 by lra. lra.
Qed.

Lemma similarity_monotone_band2 d1 d2 :
  1 < d1 -> d1 <= d2 -> d2 <= 2 -> similarity_of d2 <= similarity_of d1.
Proof.
  intros H1 H H2. rewrite !similarity_band2 by lra. halves. lra.
Qed.

Lemma similarity_monotone_band3 d1 d2 :
  2 < d1 -> d1 <= d2 -> similarity_of d2 <= similarity_of d1.
Proof.
  intros H1 H. rewrite !similarity_band3 by lra.
  apply Qle_shift_div_l; [lra|].
  setoid_replace (1 / (1 + d2) * (1 + d1)) with ((1 + d1) / (1 + d2))
    using relation Qeq by (field; lra).
  apply Qle_shift_div_r; lra.
Qed.

(** C3 (the code departs from the claim). The conversion is not monotonic
    across the bands: distance 1 is smaller than distance 3/2 and gets
    similarity 0, below the 1/4 of distance 3/2; likewise distance 2 gets
    0 and distance 5/2 gets 2/7. *)
Theorem similarity_not_monotonic :
  1 <= 3 # 2 /\
  similarity_of 1 == 0 /\ similarity_of (3 # 2) == 1 # 4 /\
  ~ similarity_of (3 # 2) <= similarity_of 1 /\
  2 <= 5 # 2 /\
  similarity_of 2 == 0 /\ similarity_of (5 # 2) == 2 # 7 /\
  ~ similarity_of (5 # 2) <= similarity_of 2.
Proof.
  repeat split; try (vm_compute; congruence).
Qed.

(** *** The loop and the sort *)

Import SearchSpec.




Lemma insert_by_similarity_perm x l :
  Permutation (insert_by_similarity x l) (x :: l).
Proof.
  induction l as [|y l IH]; simpl; [reflexivity|].
  destruct (Qlt_bool _ _); [|reflexivity].
  etransitivity; [apply perm_skip, IH | apply perm_swap].
Qed.

Lemma sort_by_similarity_perm l : Permutation (sort_by_similarity l) l.
Proof.
  induction l as [|x l IH]; simpl; [reflexivity|].
  etransitivity; [apply insert_by_similarity_perm | apply perm_skip, IH].
Qed.

Lemma insert_by_similarity_sorted x l :
  StronglySorted by_similarity l ->
  StronglySorted by_similarity (insert_by_similarity x l).
Proof.
  induction 1 as [|y l Hs IH Hall]; simpl.
  - repeat constructor.
  - destruct (Qlt_bool _ _) eqn:E.
    + apply Qlt_bool_iff in E.
      constructor; [exact IH|].
      eapply Permutation_Forall; [symmetry; apply insert_by_similarity_perm|].
      constructor; [apply Qlt_le_weak, E | exact Hall].
    + apply Qlt_bool_false in E.
      constructor; [constructor; assumption|].
      constructor; [exact E|].
      eapply List.Forall_impl; [|exact Hall].
      unfold by_similarity. intros z Hz. lra.
Qed.

Lemma sort_by_similarity_sorted l :
  StronglySorted by_similarity (sort_by_similarity l).
Proof.
  induction l as [|x l IH]; simpl; [constructor|].
  apply insert_by_similarity_sorted, IH.
Qed.










End VectorFacts.

(** ** Facts about the context builder *)

Module ContextFacts.
Import ContextBuilder ContextSpec.









End ContextFacts.

(** ** Facts about the generation orchestrator *)

Module OrchestratorFacts.
Import AIService OrchestratorSpec.











End OrchestratorFacts.

(** ** More facts about lists *)

Module ListFacts.





End ListFacts.

(** ** More facts about the conversation store *)

Module StoreExtras.
Import Database DatabaseFacts ListFacts.

Lemma insert_message_rows m d :
  messages (snd (insert_message m d))
  = messages d ++ [stored_as (sqlite_sequence d + 1) m].
Proof. reflexivity. Qed.

Lemma save_message_id cfg now m d :
  fst (save_message cfg now m d) = sqlite_sequence d + 1.
Proof. reflexivity. Qed.

(** Which rows the trim leaves. *)
Lemma cleanup_In cfg c d r :
  In r (messages (_cleanup_old_messages cfg c d)) <->
  In r (messages d) /\
  (of_chat c r = false \/
   In (row_id r) (newest_ids (MESSAGE_HISTORY_LIMIT cfg) c (messages d))).
Proof.
  unfold _cleanup_old_messages. cbn [messages]. rewrite filter_In.
  rewrite negb_true_iff, andb_false_iff, negb_false_iff, id_in_spec.
  reflexivity.
Qed.

Lemma same_id_same_row l a b :
  NoDup (map row_id l) -> In a l -> In b l -> row_id a = row_id b -> a = b.
Proof.
  induction l as [|x l IH]; simpl; [tauto|].
  rewrite NoDup_cons, list_elem_of_In. intros [Hx Hl] [<-|Ha] [<-|Hb] E.
  - reflexivity.
  - exfalso. apply Hx. rewrite E. apply in_map, Hb.
  - exfalso. apply Hx. rewrite <- E. apply in_map, Ha.
  - auto.
Qed.

Lemma in_firstn {A} n (l : list A) x : In x (firstn n l) -> In x l.
Proof.
  intros H. rewrite <- (firstn_skipn n l). apply in_or_app. left. exact H.
Qed.


Lemma candidates_In c d r :
  In r (candidates c d) <-> In r (messages d) /\ of_chat c r = true.
Proof.
  unfold candidates. rewrite <- filter_In. split; apply Permutation_in;
    [|symmetry]; apply order_perm.
Qed.

Lemma candidates_NoDup c d : wf d -> NoDup (map row_id (candidates c d)).
Proof.
  intros [Hnd _]. unfold candidates.
  rewrite (Permutation_map row_id (order_perm _)).
  apply NoDup_filter_ids, Hnd.
Qed.

Lemma newest_ids_candidates cfg c d :
  newest_ids (MESSAGE_HISTORY_LIMIT cfg) c (messages d)
  = map row_id (sql_limit (MESSAGE_HISTORY_LIMIT cfg) (candidates c d)).
Proof. reflexivity. Qed.

Lemma inserted_In now m d r :
  In r (messages (inserted now m d)) <->
  In r (messages d) \/ r = stored_as (sqlite_sequence d + 1) m.
Proof.
  unfold inserted. cbn [messages _update_message_count].
  rewrite insert_message_rows, in_app_iff. simpl. intuition congruence.
Qed.

Lemma wf_inserted now m d : wf d -> wf (inserted now m d).
Proof. intros H. apply wf_update_count, wf_insert, H. Qed.

Lemma save_message_inserted cfg now m d :
  snd (save_message cfg now m d)
  = _cleanup_old_messages cfg (chat_id m) (inserted now m d).
Proof. reflexivity. Qed.

(** X1. The id [save_message] returns is fresh: it is above the id of
    every stored row, it is one more than the id of the previous save,
    and it is not given again after [clear_chat_history] has deleted
    rows. *)
Theorem save_message_fresh_id
    (cfg : Config) (now : Z) (m : Message) (d : db) :
  wf d ->
  let k := fst (save_message cfg now m d) in
  (forall r, In r (messages d) -> row_id r < k) /\
  (forall now' m',
     fst (save_message cfg now' m' (snd (save_message cfg now m d))) = k + 1) /\
  (forall now' c r,
     In r (messages d) ->
     row_id r
     < fst (save_message cfg now m (snd (clear_chat_history now' c d)))).
Proof.
  intros [_ Hle] k. unfold k. rewrite save_message_id.
  rewrite List.Forall_forall in Hle.
  split; [|split].
  - intros r Hr. specialize (Hle r Hr). lia.
  - intros now' m'. reflexivity.
  - intros now' c r Hr. rewrite save_message_id. simpl.
    specialize (Hle r Hr). lia.
Qed.

Lemma save_message_fresh_id_witness :
  fst (save_message Samples.small_config 5 (Samples.turn 7 5)
         (snd (save_message Samples.small_config 4 (Samples.turn 7 4)
                 Samples.busy_db)))
  = fst (save_message Samples.small_config 4 (Samples.turn 7 4)
           Samples.busy_db) + 1.
Proof.
  exact (proj1 (proj2 (save_message_fresh_id Samples.small_config 4
                         (Samples.turn 7 4) Samples.busy_db
                         (wf_save_all _ _ _ wf_empty)))
           5 (Samples.turn 7 5)).
Defined.

(** X2. After [save_message] the chat holds [min (H, n + 1)] messages,
    where it held [n] before and [H] is [MESSAGE_HISTORY_LIMIT]. *)
Theorem save_message_retention
    (cfg : Config) (now : Z) (m : Message) (d : db) :
  wf d -> 0 <= MESSAGE_HISTORY_LIMIT cfg ->
  count_messages (chat_id m) (messages (snd (save_message cfg now m d)))
  = Z.min (MESSAGE_HISTORY_LIMIT cfg)
      (count_messages (chat_id m) (messages d) + 1).
Proof. apply save_message_stored. Qed.

Lemma save_message_retention_witness :
  count_messages (chat_id (Samples.turn 7 4))
    (messages (snd (save_message Samples.small_config 4 (Samples.turn 7 4)
                      Samples.busy_db)))
  = Z.min (MESSAGE_HISTORY_LIMIT Samples.small_config)
      (count_messages (chat_id (Samples.turn 7 4))
         (messages Samples.busy_db) + 1).
Proof.
  refine (save_message_retention Samples.small_config 4 (Samples.turn 7 4)
            Samples.busy_db (wf_save_all _ _ _ wf_empty) _).
  vm_compute. discriminate.
Defined.

(** X3. What [save_message] deletes is older than what it keeps: a row of
    the chat that is gone after the call has an earlier [created_at] than
    every row of the chat that is kept, or the same with a smaller id. *)
Theorem save_message_keeps_newest
    (cfg : Config) (now : Z) (m : Message) (d : db) (kept gone : row) :
  wf d ->
  let d' := snd (save_message cfg now m d) in
  In kept (messages d') -> row_chat_id kept = chat_id m ->
  In gone (messages d ++ [stored_as (sqlite_sequence d + 1) m]) ->
  row_chat_id gone = chat_id m ->
  ~ In gone (messages d') ->
  row_created_at gone < row_created_at kept \/
  (row_created_at gone = row_created_at kept /\ row_id gone < row_id kept).
Proof.
  intros Hwf d' Hk Hkc Hg Hgc Hng.
  assert (Hn : newer kept gone = true).
  { unfold d' in *. rewrite save_message_inserted in *.
    apply (cleanup_keeps_newest cfg (chat_id m) (inserted now m d) kept gone).
    - apply wf_inserted, Hwf.
    - exact Hk.
    - apply Z.eqb_eq, Hkc.
    - exact Hg.
    - apply Z.eqb_eq, Hgc.
    - exact Hng. }
  clear -Hn. newer_lia.
Qed.

Lemma save_message_keeps_newest_witness :
  let kept := stored_as 4 (Samples.turn 7 4) in
  let gone := stored_as 2 (Samples.turn 7 2) in
  row_created_at gone < row_created_at kept \/
  (row_created_at gone = row_created_at kept /\ row_id gone < row_id kept).
Proof.
  intros kept gone.
  refine (save_message_keeps_newest Samples.small_config 4 (Samples.turn 7 4)
            Samples.busy_db kept gone (wf_save_all _ _ _ wf_empty)
            _ _ _ _ _).
  - vm_compute. right. left. reflexivity.
  - reflexivity.
  - vm_compute. left. reflexivity.
  - reflexivity.
  - vm_compute. intros [H|[H|[]]]; discriminate H.
Defined.

(** X4. [save_message] leaves the other chats alone, messages and state
    rows, and keeps the persona of the chat it writes to (the default
    persona when the chat had no state row). *)
Theorem save_message_frame
    (cfg : Config) (now : Z) (m : Message) (d : db) :
  let d' := snd (save_message cfg now m d) in
  (forall c, c <> chat_id m ->
     List.filter (of_chat c) (messages d')
     = List.filter (of_chat c) (messages d) /\
     chat_states d' !! c = chat_states d !! c) /\
  current_persona (fst (get_chat_state now (chat_id m) d'))
  = current_persona (fst (get_chat_state now (chat_id m) d)).
Proof.
  intros d'. split.
  - intros c Hc. split; [apply save_message_other_chat, Hc|].
    unfold d'. rewrite save_message_snd. cbn.
    apply lookup_insert_ne. congruence.
  - unfold d'. rewrite save_message_snd.
    unfold get_chat_state, _cleanup_old_messages, _update_message_count.
    cbn [chat_states insert_message snd]. rewrite lookup_insert_eq.
    destruct (chat_states d !! chat_id m); reflexivity.
Qed.

(** X5. A message that is at least as recent as every stored message of
    its chat is kept by the [save_message] that writes it, when the limit
    is at least 1. *)
Theorem save_message_retains_latest
    (cfg : Config) (now : Z) (m : Message) (d : db) :
  wf d -> 1 <= MESSAGE_HISTORY_LIMIT cfg ->
  (forall r, In r (messages d) -> row_chat_id r = chat_id m ->
             row_created_at r <= created_at m) ->
  In (stored_as (fst (save_message cfg now m d)) m)
    (messages (snd (save_message cfg now m d))).
Proof.
  intros Hwf HH Hrecent. rewrite save_message_id, save_message_snd.
  fold (inserted now m d).
  set (x := stored_as (sqlite_sequence d + 1) m).
  assert (Hx : In x (messages (inserted now m d))).
  { apply inserted_In. right. reflexivity. }
  apply cleanup_In. split; [exact Hx|]. right.
  rewrite newest_ids_candidates.
  assert (Hxc : In x (candidates (chat_id m) (inserted now m d))).
  { apply candidates_In. split; [exact Hx|]. apply Z.eqb_refl. }
  pose proof (order_sorted
                (List.filter (of_chat (chat_id m))
                   (messages (inserted now m d)))) as Hs.
  fold (candidates (chat_id m) (inserted now m d)) in Hs.
  destruct (candidates (chat_id m) (inserted now m d)) as [|h s] eqn:Es;
    [destruct Hxc|].
  assert (Hh : row_id h = row_id x).
  { destruct (Z.eq_dec (row_id h) (row_id x)) as [E|E]; [exact E|].
    exfalso. destruct Hxc as [->|Hxs]; [congruence|].
    apply StronglySorted_inv in Hs as [_ Hall].
    rewrite List.Forall_forall in Hall. specialize (Hall x Hxs).
    assert (Hhc : In h (candidates (chat_id m) (inserted now m d))).
    { rewrite Es. left. reflexivity. }
    apply candidates_In in Hhc as [Hh Hhchat].
    apply inserted_In in Hh as [Hh| ->]; [|apply E; reflexivity].
    apply Z.eqb_eq in Hhchat.
    specialize (Hrecent h Hh Hhchat).
    destruct Hwf as [_ Hle]. rewrite List.Forall_forall in Hle.
    specialize (Hle h Hh).
    unfold desc, newer, x, stored_as in *. cbn [row_created_at row_id] in *.
    newer_lia. }
  unfold sql_limit.
  destruct (MESSAGE_HISTORY_LIMIT cfg <? 0) eqn:El;
    [left; exact Hh|].
  destruct (Z.to_nat (MESSAGE_HISTORY_LIMIT cfg)) as [|n] eqn:En; [lia|].
  left. exact Hh.
Qed.

Lemma save_message_retains_latest_witness :
  In (stored_as (fst (save_message Samples.small_config 4 (Samples.turn 7 4)
                        Samples.busy_db))
        (Samples.turn 7 4))
    (messages (snd (save_message Samples.small_config 4 (Samples.turn 7 4)
                      Samples.busy_db))).
Proof.
  refine (save_message_retains_latest Samples.small_config 4
            (Samples.turn 7 4) Samples.busy_db
            (wf_save_all _ _ _ wf_empty) _ _).
  - vm_compute. discriminate.
  - intros r Hr _. vm_compute in Hr.
    destruct Hr as [<-|[<-|[]]]; vm_compute; discriminate.
Defined.

(** X6. A message older than every stored message of a chat that already
    holds [MESSAGE_HISTORY_LIMIT] messages is deleted by the very
    [save_message] that writes it: the id returned names no stored row,
    while the counter has counted it. *)
Theorem save_message_drops_stale
    (cfg : Config) (now : Z) (m : Message) (d : db) :
  wf d -> 0 <= MESSAGE_HISTORY_LIMIT cfg ->
  MESSAGE_HISTORY_LIMIT cfg <= count_messages (chat_id m) (messages d) ->
  (forall r, In r (messages d) -> row_chat_id r = chat_id m ->
             created_at m < row_created_at r) ->
  let k := fst (save_message cfg now m d) in
  let d' := snd (save_message cfg now m d) in
  (forall r, In r (messages d') -> row_id r <> k) /\
  st_count <$> chat_states d' !! chat_id m
  = Some (count_messages (chat_id m) (messages d) + 1).
Proof.
  intros Hwf HH Hfull Hstale k d'. split; [|apply save_message_counter].
  intros r Hr Hk. unfold d', k in *.
  rewrite save_message_id in Hk. rewrite save_message_snd in Hr.
  fold (inserted now m d) in Hr.
  set (x := stored_as (sqlite_sequence d + 1) m) in *.
  pose proof (wf_inserted now m d Hwf) as Hwf'.
  apply cleanup_In in Hr as [Hr Hkeep].
  assert (Hx : In x (messages (inserted now m d))).
  { apply inserted_In. right. reflexivity. }
  assert (Hrx : r = x).
  { eapply same_id_same_row; [apply Hwf' | exact Hr | exact Hx | exact Hk]. }
  subst r. destruct Hkeep as [Hc|Hkeep].
  { unfold of_chat, x in Hc. simpl in Hc. rewrite Z.eqb_refl in Hc.
    discriminate. }
  rewrite newest_ids_candidates, sql_limit_firstn in Hkeep.
  set (s := candidates (chat_id m) (inserted now m d)) in *.
  set (n := limit_len (MESSAGE_HISTORY_LIMIT cfg) s) in *.
  apply in_map_iff in Hkeep as (x' & Hid & Hx').
  assert (Hx's : In x' s) by (eapply in_firstn, Hx').
  assert (Hx'x : x' = x).
  { apply candidates_In in Hx's as [Hx's _].
    eapply same_id_same_row; [apply Hwf' | exact Hx's | exact Hx | exact Hid]. }
  subst x'.
  assert (Hlen : (n < length s)%nat).
  { unfold n, limit_len, s, candidates.
    destruct (MESSAGE_HISTORY_LIMIT cfg <? 0) eqn:El;
      [apply Z.ltb_lt in El; lia|].
    rewrite (Permutation_length (order_perm _)).
    unfold inserted. cbn [messages _update_message_count].
    pose proof (count_after_insert m d) as Hc.
    unfold count_messages in Hc, Hfull. lia. }
  destruct (skipn n s) as [|g rest] eqn:Eg.
  { apply (f_equal (@length row)) in Eg. rewrite length_skipn in Eg.
    simpl in Eg. lia. }
  assert (Hg : In g (skipn n s)) by (rewrite Eg; left; reflexivity).
  assert (Hsorted : desc x g).
  { eapply sorted_take_drop; [apply order_sorted | exact Hx' | exact Hg]. }
  assert (Hgs : In g s).
  { rewrite <- (firstn_skipn n s). apply in_or_app. right. exact Hg. }
  assert (Hne : row_id x <> row_id g).
  { intros E.
    pose proof (candidates_NoDup (chat_id m) _ Hwf') as Hnd.
    fold s in Hnd. rewrite <- (firstn_skipn n s), map_app in Hnd.
    apply NoDup_app in Hnd as (_ & Hdisj & _).
    apply (Hdisj (row_id x)); apply list_elem_of_In.
    - apply in_map, Hx'.
    - rewrite E. apply in_map, Hg. }
  apply candidates_In in Hgs as [Hgm Hgc].
  apply inserted_In in Hgm as [Hgm| ->]; [|apply Hne; reflexivity].
  apply Z.eqb_eq in Hgc. specialize (Hstale g Hgm Hgc).
  unfold desc, newer, x, stored_as in Hsorted.
  cbn [row_created_at row_id] in Hsorted. newer_lia.
Qed.

Lemma save_message_drops_stale_witness :
  st_count <$>
    chat_states (snd (save_message Samples.small_config 4 (Samples.turn 7 0)
                        Samples.busy_db)) !! chat_id (Samples.turn 7 0)
  = Some (count_messages (chat_id (Samples.turn 7 0))
            (messages Samples.busy_db) + 1).
Proof.
  refine (proj2 (save_message_drops_stale Samples.small_config 4
                   (Samples.turn 7 0) Samples.busy_db
                   (wf_save_all _ _ _ wf_empty) _ _ _)).
  - vm_compute. discriminate.
  - vm_compute. discriminate.
  - intros r Hr _. vm_compute in Hr.
    destruct Hr as [<-|[<-|[]]]; vm_compute; reflexivity.
Defined.




Lemma filter_of_chat_true c rows :
  List.filter (fun r => of_chat c r && true) rows
  = List.filter (of_chat c) rows.
Proof.
  apply filter_ext. intros r. apply andb_true_r.
Qed.

(** X8. Read back with no limit and no time window, the history of a chat
    that holds at most [MESSAGE_HISTORY_LIMIT] messages is all of its
    stored messages; right after a [save_message] it has
    [min (H, n + 1)] entries. *)
Theorem get_chat_history_after_save
    (cfg : Config) (now now' : Z) (m : Message) (d : db) :
  wf d -> 0 <= MESSAGE_HISTORY_LIMIT cfg ->
  let d' := snd (save_message cfg now m d) in
  let out := get_chat_history cfg now' d' (chat_id m) None None in
  Permutation out
    (map message_of_row (List.filter (of_chat (chat_id m)) (messages d'))) /\
  Z.of_nat (length out)
  = Z.min (MESSAGE_HISTORY_LIMIT cfg)
      (count_messages (chat_id m) (messages d) + 1).
Proof.
  intros Hwf HH d' out.
  pose proof (save_message_stored cfg now m d Hwf HH) as Hcount.
  fold d' in Hcount.
  assert (Hout : Permutation out
            (map message_of_row
               (List.filter (of_chat (chat_id m)) (messages d')))).
  { unfold out, get_chat_history. cbn [limit_or].
    rewrite filter_of_chat_true.
    etransitivity; [symmetry; apply Permutation_rev|].
    apply Permutation_map.
    unfold sql_limit.
    destruct (_ <? 0) eqn:E; [apply order_perm|].
    rewrite firstn_all2; [apply order_perm|].
    rewrite (Permutation_length (order_perm _)).
    unfold count_messages in Hcount. lia. }
  split; [exact Hout|].
  rewrite (Permutation_length Hout), length_map.
  exact Hcount.
Qed.

Lemma get_chat_history_after_save_witness :
  Z.of_nat (length (get_chat_history Samples.small_config 5
                      (snd (save_message Samples.small_config 4
                              (Samples.turn 7 4) Samples.busy_db))
                      (chat_id (Samples.turn 7 4)) None None))
  = Z.min (MESSAGE_HISTORY_LIMIT Samples.small_config)
      (count_messages (chat_id (Samples.turn 7 4))
         (messages Samples.busy_db) + 1).
Proof.
  refine (proj2 (get_chat_history_after_save Samples.small_config 4 5
                   (Samples.turn 7 4) Samples.busy_db
                   (wf_save_all _ _ _ wf_empty) _)).
  vm_compute. discriminate.
Defined.

(** X9. [get_chat_state] creates a missing state with the default persona
    and a count of 0 and stores it: a second read returns the same state
    and writes nothing; an existing state is returned as stored, and the
    messages are never touched. *)
Theorem get_chat_state_idempotent (now now' : Z) (c : Z) (d : db) :
  let state := fst (get_chat_state now c d) in
  let d1 := snd (get_chat_state now c d) in
  get_chat_state now' c d1 = (state, d1) /\
  messages d1 = messages d /\
  cs_chat_id state = c /\
  (chat_states d !! c = None ->
   current_persona state = BUSINESS /\ message_count state = 0) /\
  (forall s, chat_states d !! c = Some s ->
     d1 = d /\ current_persona state = st_persona s /\
     message_count state = st_count s) /\
  (forall c', c' <> c -> chat_states d1 !! c' = chat_states d !! c').
Proof.
  cbn zeta. unfold get_chat_state.
  destruct (chat_states d !! c) as [s|] eqn:E; cbn [fst snd].
  - rewrite E. split; [reflexivity|]. split; [reflexivity|].
    split; [reflexivity|]. split; [discriminate|].
    split; [|reflexivity].
    intros s' [= <-]. repeat split.
  - unfold save_chat_state, create_default.
    cbn [chat_states cs_chat_id current_persona message_count last_activity
         messages].
    rewrite lookup_insert_eq. split; [reflexivity|]. split; [reflexivity|].
    split; [reflexivity|]. split; [split; reflexivity|].
    split; [discriminate|].
    intros c' Hc'. apply lookup_insert_ne. congruence.
Qed.

(** X10. [update_chat_persona] sets the persona and keeps the counter: the
    next [get_chat_state] reports the new persona and the count that was
    reported before (0 for a chat without state); the messages and the
    states of the other chats are untouched. *)
Theorem update_chat_persona_keeps_count
    (now now' : Z) (c : Z) (p : PersonaType) (d : db) :
  let d1 := update_chat_persona now c p d in
  let state := fst (get_chat_state now' c d1) in
  current_persona state = p /\
  message_count state = message_count (fst (get_chat_state now c d)) /\
  snd (get_chat_state now' c d1) = d1 /\
  messages d1 = messages d /\
  (forall c', c' <> c -> chat_states d1 !! c' = chat_states d !! c').
Proof.
  cbn zeta. unfold get_chat_state, update_chat_persona.
  cbn [chat_states messages]. rewrite lookup_insert_eq. cbn [fst snd].
  repeat split.
  - destruct (chat_states d !! c); reflexivity.
  - intros c' Hc'. apply lookup_insert_ne. congruence.
Qed.

End StoreExtras.

(** ** More facts about strings *)

Module StrExtras.
Import StrFacts.

Lemma str_eqb_eq a b : str_eqb a b = true <-> a = b.
Proof.
  revert b. induction a as [|x a IH]; intros [|y b]; simpl;
    try (split; congruence).
  rewrite andb_true_iff, N.eqb_eq, IH. split.
  - intros [-> ->]. reflexivity.
  - intros [= -> ->]. auto.
Qed.

Lemma lstrip_idem s : lstrip (lstrip s) = lstrip s.
Proof.
  induction s as [|c s IH]; simpl; [reflexivity|].
  destruct (isspace c) eqn:E; [exact IH|]. simpl. rewrite E. reflexivity.
Qed.

Lemma lstrip_snoc l c :
  isspace c = false -> lstrip (l ++ [c]) = lstrip l ++ [c].
Proof.
  intros Hc. induction l as [|x l IH]; simpl.
  - rewrite Hc. reflexivity.
  - destruct (isspace x); [exact IH | reflexivity].
Qed.

Lemma rstrip_cons c s :
  isspace c = false -> rstrip (c :: s) = c :: rstrip s.
Proof.
  intros Hc. unfold rstrip. simpl.
  rewrite lstrip_snoc by exact Hc. rewrite rev_app_distr. reflexivity.
Qed.

Lemma rstrip_idem s : rstrip (rstrip s) = rstrip s.
Proof.
  unfold rstrip. rewrite rev_involutive, lstrip_idem. reflexivity.
Qed.

(** What [strip] returns has no whitespace left to strip. *)
Lemma strip_idem s : strip (strip s) = strip s.
Proof.
  unfold strip at 2 3.
  destruct (lstrip s) as [|c a] eqn:E; [reflexivity|].
  pose proof (lstrip_head s c a E) as Hc.
  rewrite rstrip_cons by exact Hc.
  unfold strip. simpl. rewrite Hc.
  rewrite rstrip_cons by exact Hc. rewrite rstrip_idem. reflexivity.
Qed.

End StrExtras.

(** ** More facts about the query translator *)

Module TranslatorExtras.
Import QueryTranslator StrFacts StrExtras TranslatorFacts.

(** [translate_query] returns, it does not raise. *)
Lemma translate_query_returns api self q log :
  match fst (translate_query api self q log) with
  | Ok _ => True
  | Raise _ => False
  end.
Proof.
  destruct (blank q) eqn:Hb.
  - rewrite translate_blank by exact Hb. exact I.
  - rewrite translate_nonblank by exact Hb.
    destruct (fst (_call_deepseek_translation api self q log)); exact I.
Qed.

(** A translation that is returned has been stripped. *)
Lemma call_stripped api self q log text :
  fst (_call_deepseek_translation api self q log) = Ok text ->
  strip text = text.
Proof.
  unfold _call_deepseek_translation, mbind, M_bind, post, lift, raise, mret,
    M_ret.
  destruct (api log (translation_payload self q)) as [data|e];
    [|discriminate].
  destruct (translated_text data) as [t|e] eqn:Et; [|discriminate].
  destruct (str_is_empty t); [discriminate|].
  simpl. intros [= <-].
  unfold translated_text in Et.
  destruct (py_get data (u "choices") (JArr [JObj []])) as [choices|];
    [|discriminate].
  cbn [mbind result_bind] in Et.
  destruct (py_first choices) as [first|]; [|discriminate].
  cbn [mbind result_bind] in Et.
  destruct (py_get first (u "message") (JObj [])) as [message|];
    [|discriminate].
  cbn [mbind result_bind] in Et.
  destruct (py_get message (u "content") (JStr [])) as [content|];
    [|discriminate].
  cbn [mbind result_bind] in Et.
  destruct content; try discriminate. simpl in Et.
  injection Et as <-. apply strip_idem.
Qed.

(** X11. [translate_query] returns [None] in two cases only: the query is
    blank, or the translation call succeeds with the sentinel
    ["CASUAL_CHAT"] (once stripped). *)
Theorem translate_query_none_iff
    (api : Api) (self : t) (q : str) (log : list Payload) :
  fst (translate_query api self q log) = Ok None <->
  blank q = true \/
  fst (_call_deepseek_translation api self q log) = Ok CASUAL_CHAT.
Proof.
  destruct (blank q) eqn:Hb.
  - rewrite translate_blank by exact Hb. simpl. tauto.
  - rewrite translate_nonblank by exact Hb.
    destruct (fst (_call_deepseek_translation api self q log)) as [text|e].
    + destruct (str_eqb text CASUAL_CHAT) eqn:E.
      * apply str_eqb_eq in E. subst. tauto.
      * split; [discriminate|]. intros [H|[= ->]]; [discriminate|].
        rewrite (proj2 (str_eqb_eq _ _) eq_refl) in E. discriminate.
    + split; [discriminate|]. intros [H|H]; discriminate.
Qed.

(** X12. A string that [translate_query] returns is either the original
    query, when the translation call raised, or the translation: then it
    is not empty, has no leading or trailing whitespace, and is not the
    sentinel. *)
Theorem translate_query_some
    (api : Api) (self : t) (q s : str) (log : list Payload) :
  fst (translate_query api self q log) = Ok (Some s) ->
  (s = q /\ blank q = false /\
   exists e, fst (_call_deepseek_translation api self q log) = Raise e) \/
  (fst (_call_deepseek_translation api self q log) = Ok s /\
   s <> [] /\ strip s = s /\ s <> CASUAL_CHAT).
Proof.
  destruct (blank q) eqn:Hb.
  - rewrite translate_blank by exact Hb. discriminate.
  - rewrite translate_nonblank by exact Hb.
    destruct (fst (_call_deepseek_translation api self q log)) as [text|e]
      eqn:E.
    + destruct (str_eqb text CASUAL_CHAT) eqn:Ec; [discriminate|].
      intros [= <-]. right. split; [reflexivity|].
      split; [eapply call_nonempty, E|].
      split; [eapply call_stripped, E|].
      intros ->. rewrite (proj2 (str_eqb_eq _ _) eq_refl) in Ec.
      discriminate.
    + intros [= <-]. left. eauto.
Qed.

Lemma translate_query_some_witness :
  (u "bonus?" = u "bonus?" /\ blank (u "bonus?") = false /\
   exists e,
     fst (_call_deepseek_translation Samples.api_down Samples.translator
            (u "bonus?") []) = Raise e) \/
  (fst (_call_deepseek_translation Samples.api_down Samples.translator
          (u "bonus?") []) = Ok (u "bonus?") /\
   u "bonus?" <> [] /\ strip (u "bonus?") = u "bonus?" /\
   u "bonus?" <> CASUAL_CHAT).
Proof.
  apply (translate_query_some Samples.api_down Samples.translator
           (u "bonus?") (u "bonus?") []).
  reflexivity.
Defined.

(** X13. [translate_query] sends one request for a query that is not
    blank, whatever the API answers, and none for a blank one; the
    request carries the translation prompt as system message and the
    query, unchanged, as user message. *)
Theorem translate_query_requests
    (api : Api) (self : t) (q : str) (log : list Payload) :
  snd (translate_query api self q log)
  = log ++ (if blank q then [] else [translation_payload self q]) /\
  pl_messages (translation_payload self q)
  = [{| api_role := SYSTEM; api_content := translation_prompt self |};
     {| api_role := USER; api_content := q |}].
Proof.
  split; [|reflexivity].
  destruct (blank q) eqn:Hb.
  - rewrite translate_blank by exact Hb. simpl. rewrite app_nil_r.
    reflexivity.
  - apply translate_sends, Hb.
Qed.

(** X14. The translator's [health_check] reports [False] only when the
    API answers the test query with the sentinel; when the API is down
    (the call raises) it reports [True], because [translate_query] then
    returns the test query itself. It never raises. *)
Theorem health_check_blind (api : Api) (self : t) (log : list Payload) :
  let call :=
    fst (_call_deepseek_translation api self (u "тест") log) in
  (exists b, fst (health_check api self log) = Ok b) /\
  (fst (health_check api self log) = Ok false <-> call = Ok CASUAL_CHAT) /\
  (forall e, call = Raise e -> fst (health_check api self log) = Ok true).
Proof.
  intros call.
  assert (Hb : blank (u "тест") = false) by reflexivity.
  pose proof (translate_query_none_iff api self (u "тест") log) as Hnone.
  pose proof (translate_query_returns api self (u "тест") log)
    as Hok.
  unfold health_check, try_except, mbind, M_bind, mret, M_ret.
  destruct (translate_query api self (u "тест") log) as [[[s|]|e] log'];
    cbn [fst snd] in *.
  - split; [eauto|]. split.
    + split; [discriminate|]. intros Hc.
      assert (H : Ok (Some s) = Ok (@None str)) by (apply Hnone; auto).
      discriminate.
    + reflexivity.
  - split; [eauto|]. split.
    + split; [intros _|reflexivity].
      destruct (proj1 Hnone eq_refl) as [H|H]; [congruence | exact H].
    + intros e He.
      destruct (proj1 Hnone eq_refl) as [H|H]; [congruence|].
      fold call in H. congruence.
  - destruct Hok.
Qed.

End TranslatorExtras.

(** ** More facts about the similarity search *)

Module VectorExtras.
Import VectorService StrSpec SearchSpec VectorFacts.
Local Open Scope Q_scope.

Lemma collect_threshold i docs metas dists T :
  Forall (fun r => T <= sr_similarity r) (collect i docs metas dists T).
Proof.
  revert i. induction docs as [|doc docs IH]; intros i; simpl; [constructor|].
  destruct (Qlt_bool _ T) eqn:E; [apply IH|].
  constructor; [apply Qlt_bool_false, E | apply IH].
Qed.

Lemma collect_length i docs metas dists T :
  (length (collect i docs metas dists T) <= length docs)%nat.
Proof.
  revert i. induction docs as [|doc docs IH]; intros i; simpl; [lia|].
  destruct (Qlt_bool _ T); simpl; specialize (IH (S i)); lia.
Qed.

Lemma rank_threshold found T :
  Forall (fun r => T <= sr_similarity r) (rank found T) /\
  StronglySorted by_similarity (rank found T) /\
  (length (rank found T) <= length (first_or_empty (documents found)))%nat.
Proof.
  unfold rank. split; [|split].
  - eapply Permutation_Forall; [symmetry; apply sort_by_similarity_perm|].
    destruct (documents found) as [[|[|doc docs] rest]|];
      try constructor.
    apply collect_threshold.
  - apply sort_by_similarity_sorted.
  - rewrite (Permutation_length (sort_by_similarity_perm _)).
    destruct (documents found) as [[|[|doc docs] rest]|]; simpl; try lia.
    apply (collect_length 0 (doc :: docs)).
Qed.

(** X15. [search_similar] raises nothing but [VectorServiceError]; once
    the client is initialised it returns the empty list for a blank query
    and for an empty collection, whatever the embedding service and the
    index would answer. *)
Theorem search_similar_empty
    (env : Env) (cfg : Config) (query : str) (limit : option Z)
    (threshold : option Q) :
  (forall e, search_similar env cfg query limit threshold = Raise e ->
             e = VectorServiceError) /\
  (_initialize_client env = Ok tt ->
   blank query = true \/ collection_count env = Ok 0%Z ->
   search_similar env cfg query limit threshold = Ok []).
Proof.
  unfold search_similar, search_body. split.
  - intros e. unfold try_result.
    match goal with |- match ?b with _ => _ end = _ -> _ => destruct b end;
      [discriminate|]. intros [= <-]. reflexivity.
  - intros Hi Hcase. rewrite Hi. cbn [mbind result_bind try_result].
    rewrite StrFacts.strip_empty_iff.
    destruct (blank query) eqn:Hb; [reflexivity|].
    destruct Hcase as [Hq|Hc]; [discriminate|].
    rewrite Hc. reflexivity.
Qed.

(** X16. Whatever the index answers, every result [search_similar] returns
    has a similarity not below the effective threshold (the argument, or
    [VECTOR_SIMILARITY_THRESHOLD] when it is absent or zero), and the
    results are in descending order of similarity. *)
Theorem search_similar_above_threshold
    (env : Env) (cfg : Config) (query : str) (limit : option Z)
    (threshold : option Q) (out : list SearchResult) :
  search_similar env cfg query limit threshold = Ok out ->
  Forall (fun r => or_default_Q threshold (VECTOR_SIMILARITY_THRESHOLD cfg)
                   <= sr_similarity r) out /\
  StronglySorted by_similarity out.
Proof.
  unfold search_similar, search_body.
  destruct (_initialize_client env) as [[]|e]; [|discriminate].
  cbn [mbind result_bind try_result].
  destruct (str_is_empty (strip query)).
  { intros [= <-]. split; constructor. }
  destruct (collection_count env) as [n|e]; [|discriminate].
  cbn [mbind result_bind].
  destruct (n =? 0)%Z.
  { intros [= <-]. split; constructor. }
  destruct (create_embedding env query) as [emb|e]; [|discriminate].
  cbn [mbind result_bind].
  destruct (collection_query env emb _) as [found|e]; [|discriminate].
  cbn [mbind result_bind try_result]. intros [= <-].
  destruct (rank_threshold found
              (or_default_Q threshold (VECTOR_SIMILARITY_THRESHOLD cfg)))
    as (H1 & H2 & _).
  split; assumption.
Qed.

Lemma search_similar_above_threshold_witness :
  Forall (fun r => or_default_Q (Some (1 # 5))
                     (VECTOR_SIMILARITY_THRESHOLD default_config)
                   <= sr_similarity r)
    (rank {| documents := Some [map fst Samples.found]; metadatas := None;
             distances := Some [map snd Samples.found] |} (1 # 5)) /\
  StronglySorted by_similarity
    (rank {| documents := Some [map fst Samples.found]; metadatas := None;
             distances := Some [map snd Samples.found] |} (1 # 5)).
Proof.
  apply (search_similar_above_threshold (Samples.index_of Samples.found)
           default_config (u "bonus") None (Some (1 # 5))).
  reflexivity.
Defined.




End VectorExtras.

(** ** Facts about the indexing of the knowledge base *)

Module KnowledgeBaseFacts.
Import KnowledgeBase StrFacts StrExtras.

Lemma in_lstrip c s : In c (lstrip s) -> In c s.
Proof.
  induction s as [|x s IH]; simpl; [tauto|].
  destruct (isspace x); [auto|]. simpl. tauto.
Qed.

Lemma in_strip c s : In c (strip s) -> In c s.
Proof.
  unfold strip, rstrip. intros H.
  apply in_rev, in_lstrip, in_rev, in_lstrip in H. exact H.
Qed.

Lemma split_no_sep sep s : Forall (fun l => ~ In sep l) (split sep s).
Proof.
  induction s as [|c s IH]; simpl.
  - repeat constructor. intros [].
  - destruct (c =? sep)%N eqn:E.
    + constructor; [intros []|exact IH].
    + apply N.eqb_neq in E.
      destruct (split sep s) as [|l ls].
      * repeat constructor. intros [H|[]]. congruence.
      * apply Forall_cons in IH as [Hl Hls]. constructor; [|exact Hls].
        intros [H|H]; [congruence | tauto].
Qed.

Lemma stripped_lines_spec content line :
  In line (stripped_lines content) ->
  line <> [] /\ strip line = line /\ ~ In 10%N line.
Proof.
  unfold stripped_lines. intros H.
  apply filter_In in H as [H Hne].
  apply in_map_iff in H as (raw & <- & Hraw).
  split; [|split].
  - apply str_is_empty_false, negb_true_iff, Hne.
  - apply strip_idem.
  - intros Hnl. apply in_strip in Hnl.
    pose proof (split_no_sep 10%N content) as Hall.
    rewrite List.Forall_forall in Hall. exact (Hall raw Hraw Hnl).
Qed.

Lemma index_lines_spec file path k i lines :
  let docs := fst (index_lines file path k i lines) in
  snd (index_lines file path k i lines) = (k + length docs)%nat /\
  map doc_id docs = seq (S k) (length docs) /\
  Forall (fun d =>
            doc_file d = file /\ doc_file_path d = path /\
            (10 <= length (doc_text d))%nat /\
            exists j, nth_error lines j = Some (doc_text d) /\
                      doc_line_number d = (i + j + 1)%nat)
    docs.
Proof.
  cbn zeta. revert k i. induction lines as [|line rest IH]; intros k i.
  - simpl. split; [lia|]. split; [reflexivity | constructor].
  - cbn [index_lines].
    destruct (Nat.ltb_spec (length line) 10) as [Hlen|Hlen].
    + destruct (IH k (S i)) as (H1 & H2 & H3).
      split; [exact H1|]. split; [exact H2|].
      eapply List.Forall_impl; [|exact H3]. cbn beta.
      intros d (Hf & Hp & Hl & j & Hj & Hn).
      repeat split; try assumption. exists (S j). split; [exact Hj | lia].
    + destruct (IH (S k) (S i)) as (H1 & H2 & H3).
      destruct (index_lines file path (S k) (S i) rest) as [docs n].
      cbn [fst snd] in *. cbn [length map seq]. split; [lia|].
      split; [f_equal; exact H2|].
      constructor.
      * cbn. repeat split; try assumption. exists 0%nat. split;
          [reflexivity | lia].
      * eapply List.Forall_impl; [|exact H3]. cbn beta.
        intros d (Hf & Hp & Hl & j & Hj & Hn).
        repeat split; try assumption. exists (S j). split; [exact Hj | lia].
Qed.

Lemma index_files_ids k files :
  map doc_id (index_files k files)
  = seq (S k) (length (index_files k files)).
Proof.
  revert k. induction files as [|f files IH]; intros k; [reflexivity|].
  cbn [index_files]. destruct (kb_read f) as [content|e]; [|apply IH].
  pose proof (index_lines_spec (kb_name f) (kb_path f) k 0
                (stripped_lines content)) as (H1 & H2 & _).
  destruct (index_lines (kb_name f) (kb_path f) k 0 (stripped_lines content))
    as [docs n].
  cbn [fst snd] in *. subst n.
  rewrite map_app, length_app, seq_app, H2, IH, Nat.add_succ_l.
  reflexivity.
Qed.

(** X18. Every document the indexing loop produces is a stripped,
    non-blank line of a readable file, at least 10 characters long and
    without a line break; its metadata names that file, and its
    [line_number] is its position, from 1, among the non-blank lines of
    the file (blank lines are not counted, short lines are). *)
Theorem index_files_documents
    (k : nat) (files : list KbFile) (d : Document) :
  In d (index_files k files) ->
  exists f content,
    In f files /\ kb_read f = Ok content /\
    doc_file d = kb_name f /\ doc_file_path d = kb_path f /\
    (1 <= doc_line_number d)%nat /\
    nth_error (stripped_lines content) (doc_line_number d - 1)
    = Some (doc_text d) /\
    (10 <= length (doc_text d))%nat /\
    strip (doc_text d) = doc_text d /\
    blank (doc_text d) = false /\
    ~ In 10%N (doc_text d).
Proof.
  revert k. induction files as [|f files IH]; intros k; [intros []|].
  cbn [index_files]. destruct (kb_read f) as [content|e] eqn:Hread.
  - pose proof (index_lines_spec (kb_name f) (kb_path f) k 0
                  (stripped_lines content)) as (_ & _ & H3).
    destruct (index_lines (kb_name f) (kb_path f) k 0
                (stripped_lines content)) as [docs n].
    cbn [fst] in H3. intros Hd. apply in_app_or in Hd as [Hd|Hd].
    + rewrite List.Forall_forall in H3.
      destruct (H3 d Hd) as (Hf & Hp & Hl & j & Hj & Hn).
      destruct (stripped_lines_spec content (doc_text d)) as (Hne & Hs & Hnl).
      { eapply nth_error_In, Hj. }
      exists f, content. split; [left; reflexivity|].
      split; [exact Hread|]. split; [exact Hf|]. split; [exact Hp|].
      split; [lia|]. split.
      { replace (doc_line_number d - 1)%nat with j by lia. exact Hj. }
      split; [exact Hl|]. split; [exact Hs|]. split; [|exact Hnl].
      destruct (blank (doc_text d)) eqn:Hb; [|reflexivity].
      apply strip_blank in Hb. congruence.
    + destruct (IH n Hd) as (f' & c' & Hin & Hrest).
      exists f', c'. split; [right; exact Hin | exact Hrest].
  - intros Hd. destruct (IH k Hd) as (f' & c' & Hin & Hrest).
    exists f', c'. split; [right; exact Hin | exact Hrest].
Qed.

Lemma index_files_documents_witness :
  exists f content,
    In f Samples.kb_files /\ kb_read f = Ok content /\
    doc_file Samples.kb_doc = kb_name f /\
    doc_file_path Samples.kb_doc = kb_path f /\
    (1 <= doc_line_number Samples.kb_doc)%nat /\
    nth_error (stripped_lines content) (doc_line_number Samples.kb_doc - 1)
    = Some (doc_text Samples.kb_doc) /\
    (10 <= length (doc_text Samples.kb_doc))%nat /\
    strip (doc_text Samples.kb_doc) = doc_text Samples.kb_doc /\
    blank (doc_text Samples.kb_doc) = false /\
    ~ In 10%N (doc_text Samples.kb_doc).
Proof.
  refine (index_files_documents 0 Samples.kb_files Samples.kb_doc _).
  vm_compute. right. left. reflexivity.
Defined.

(** X19. The documents of one indexing run are numbered 1, 2, 3, ... in
    the order they are produced, across files; so their ids [doc_<n>] are
    pairwise distinct. *)
Theorem index_files_ids_consecutive (files : list KbFile) :
  map doc_id (index_files 0 files)
  = seq 1 (length (index_files 0 files)) /\
  NoDup (map doc_id (index_files 0 files)).
Proof.
  split; [apply index_files_ids|].
  rewrite index_files_ids. apply NoDup_ListNoDup, List.seq_NoDup.
Qed.

End KnowledgeBaseFacts.

(** ** Facts about the prompt service *)

Module PromptFacts.
Import PromptService StrFacts.

(** The opening brace, with which both placeholders start. *)
Definition brace : char := 123%N.

(** [no_brace s]: no opening brace occurs in [s]. *)
Definition no_brace (s : str) : Prop := Forall (fun c => c <> brace) s.

Lemma starts_with_other p c s :
  c <> brace -> starts_with (brace :: p) (c :: s) = false.
Proof.
  intros Hc. cbn [starts_with].
  destruct (N.eqb_spec brace c) as [E|E]; [congruence | reflexivity].
Qed.

Lemma starts_with_app p s : starts_with p (p ++ s) = true.
Proof.
  induction p as [|x p IH]; cbn [app starts_with]; [reflexivity|].
  rewrite N.eqb_refl. exact IH.
Qed.

Lemma contains_no_brace p s :
  no_brace s -> contains (brace :: p) s = false.
Proof.
  induction 1 as [|c s Hc Hs IH]; [reflexivity|].
  cbn [contains]. rewrite starts_with_other by exact Hc. exact IH.
Qed.

Lemma contains_skip p pre s :
  no_brace pre -> contains (brace :: p) (pre ++ s) = contains (brace :: p) s.
Proof.
  induction 1 as [|c pre Hc Hs IH]; [reflexivity|].
  cbn [app contains]. rewrite starts_with_other by exact Hc. exact IH.
Qed.

Lemma contains_here p s : contains p (p ++ s) = true.
Proof.
  destruct p as [|x p]; [destruct s; reflexivity|].
  cbn [app contains]. change (x :: p ++ s) with ((x :: p) ++ s).
  rewrite starts_with_app. reflexivity.
Qed.

Lemma replace_no_brace p new s :
  no_brace s -> replace_from 0 (brace :: p) new s = s.
Proof.
  induction 1 as [|c s Hc Hs IH]; [reflexivity|].
  cbn [replace_from]. rewrite starts_with_other by exact Hc.
  rewrite IH. reflexivity.
Qed.

Lemma replace_skip p new pre s :
  no_brace pre ->
  replace_from 0 (brace :: p) new (pre ++ s)
  = pre ++ replace_from 0 (brace :: p) new s.
Proof.
  induction 1 as [|c pre Hc Hs IH]; [reflexivity|].
  cbn [app replace_from]. rewrite starts_with_other by exact Hc.
  rewrite IH. reflexivity.
Qed.

Lemma replace_pass old new a s :
  replace_from (length a) old new (a ++ s) = replace_from 0 old new s.
Proof.
  induction a as [|x a IH]; [reflexivity|]. exact IH.
Qed.

Lemma replace_here p new s :
  replace_from 0 (brace :: p) new ((brace :: p) ++ s)
  = new ++ replace_from 0 (brace :: p) new s.
Proof.
  cbn [app replace_from].
  change (brace :: p ++ s) with ((brace :: p) ++ s).
  rewrite starts_with_app.
  replace (length (brace :: p) - 1)%nat with (length p) by (simpl; lia).
  rewrite replace_pass. reflexivity.
Qed.

(** One placeholder between two texts without braces is replaced in
    place. *)
Lemma replace_single p new pre post :
  no_brace pre -> no_brace post ->
  replace (brace :: p) new (pre ++ (brace :: p) ++ post) = pre ++ new ++ post.
Proof.
  intros Hpre Hpost. unfold replace.
  rewrite replace_skip by exact Hpre.
  rewrite replace_here, replace_no_brace by exact Hpost. reflexivity.
Qed.

Lemma default_no_placeholders persona :
  contains promotions_placeholder (_get_default_prompt persona) = false /\
  contains context_placeholder (_get_default_prompt persona) = false.
Proof. destruct persona; vm_compute; split; reflexivity. Qed.

(** X20. When the persona's prompt file is missing, unreadable or blank,
    the system prompt is the built-in default of the persona, whatever
    the promotions and the knowledge context are: the defaults have no
    placeholder, so neither is inserted. *)
Theorem default_prompt_drops_context
    (fs : Files) (persona : PersonaType)
    (promotions_info context_info : option str) :
  _load_prompt_from_file fs persona = None ->
  PromptService.get_system_prompt fs persona promotions_info context_info
  = _get_default_prompt persona.
Proof.
  intros H. unfold PromptService.get_system_prompt. rewrite H.
  cbn [or_str].
  destruct (default_no_placeholders persona) as [Hp Hc].
  rewrite Hp, Hc. reflexivity.
Qed.

Lemma default_prompt_drops_context_witness :
  PromptService.get_system_prompt Samples.no_files BELLA None
    (Some (u "Minimum deposit is 10 USD"))
  = _get_default_prompt BELLA.
Proof.
  apply (default_prompt_drops_context Samples.no_files BELLA None
           (Some (u "Minimum deposit is 10 USD"))).
  reflexivity.
Defined.

(** The block that stands for the context placeholder. *)
Definition context_section (context_info : option str) : str :=
  match context_info with
  | None | Some [] => []
  | Some text =>
      nl ++ nl ++ u "ДОПОЛНИТЕЛЬНЫЙ КОНТЕКСТ:" ++ nl ++ text ++ nl
  end.

(** X21. For a prompt template that holds the placeholder [{context}]
    once and no other opening brace, the system prompt is the template
    with the placeholder replaced by the knowledge block (two line
    breaks, the heading, a line break, the context, a line break), or
    with the placeholder removed when there is no context or it is
    empty; promotions play no part. *)
Theorem context_placeholder_replaced
    (fs : Files) (persona : PersonaType) (pre post : str)
    (promotions_info context_info : option str) :
  no_brace pre -> no_brace post ->
  _load_prompt_from_file fs persona
  = Some (pre ++ context_placeholder ++ post) ->
  PromptService.get_system_prompt fs persona promotions_info context_info
  = pre ++ context_section context_info ++ post.
Proof.
  intros Hpre Hpost H. unfold PromptService.get_system_prompt. rewrite H.
  assert (Hne : or_str (Some (pre ++ context_placeholder ++ post))
                  (_get_default_prompt persona)
                = pre ++ context_placeholder ++ post).
  { unfold or_str. destruct (pre ++ context_placeholder ++ post) eqn:E;
      [|reflexivity].
    apply app_eq_nil in E as [_ E]. discriminate. }
  rewrite Hne.
  assert (Hnp : contains promotions_placeholder
                  (pre ++ context_placeholder ++ post) = false).
  { change promotions_placeholder with (brace :: u "promotions}").
    rewrite contains_skip by exact Hpre.
    change context_placeholder with (brace :: u "context}").
    cbn [app contains]. rewrite orb_false_iff. split; [reflexivity|].
    rewrite (contains_skip _ (u "context}")).
    - apply contains_no_brace, Hpost.
    - unfold no_brace. vm_compute. repeat constructor; discriminate. }
  rewrite Hnp.
  assert (Hc : contains context_placeholder
                 (pre ++ context_placeholder ++ post) = true).
  { change context_placeholder with (brace :: u "context}") at 1.
    rewrite contains_skip by exact Hpre. apply contains_here. }
  rewrite Hc.
  change context_placeholder with (brace :: u "context}").
  rewrite replace_single by assumption.
  destruct context_info as [[|c text]|]; reflexivity.
Qed.

Lemma context_placeholder_replaced_witness :
  PromptService.get_system_prompt Samples.context_template BEN None
    (Some (u "Minimum deposit is 10 USD"))
  = u "You are a consultant."
    ++ context_section (Some (u "Minimum deposit is 10 USD"))
    ++ u " Answer briefly.".
Proof.
  apply (context_placeholder_replaced Samples.context_template BEN
           (u "You are a consultant.") (u " Answer briefly.") None
           (Some (u "Minimum deposit is 10 USD"))).
  - unfold no_brace. vm_compute. repeat constructor; discriminate.
  - unfold no_brace. vm_compute. repeat constructor; discriminate.
  - reflexivity.
Defined.

End PromptFacts.
